(** * Pongou: ledger, match coordinator and player statistics

    A shallow embedding of the three zustand stores of the application
    ([WalletStore], [GameStore], [UserStore]) and of the properties their
    specification states about them.

    Conventions of the embedding.
    - A JavaScript [number] is written as an exact rational ([Qc]): a term
      of the model is the expression the code evaluates, and the theorems
      say which expression that is.  The code evaluates it in binary64, so
      what holds of exact numbers only (an identity such as
      [(x + a) - a = x], an order that rounding can break) is not stated of
      the stores; [Binary64] evaluates the arithmetic of the payout in
      doubles and shows where they part.  [NaN] and the infinities are
      outside the model, so a division is only meaningful where the divisor
      is not zero.
    - A [Date] and the result of [Date.now()] are milliseconds since the
      epoch ([Z]).  The clock reads made during one call are taken as one
      value [now], passed to the operation.
    - [uuid.v4()] is an oracle: every identifier an operation generates is
      an explicit argument of its model.
    - An [async] action runs to completion before the next one starts, and
      [saveString] (the storage collaborator, not part of these sources)
      resolves: what an action leaves behind is the store after its last
      [set].
    - [set(produce(recipe))] commits the recipe atomically: a recipe that
      throws leaves the store as it was. *)

From Stdlib Require Import QArith Qcanon Sorted.
From Stdlib Require Import Floats.PrimFloat.
From stdpp Require Import gmap strings list fin_maps numbers.

Local Open Scope Z_scope.
Local Open Scope string_scope.

(** ** Values shared by the stores *)

Abbreviation number := Qc (only parsing).

(** Decimal literals of the sources. *)
Definition num (z : Z) : number := Qc_of_Z z.

(** The text carried by [state.error]: either the message of an [Error] the
    code itself builds, or the message of the [TypeError] the engine raises
    when a property of [undefined] is read or written (its wording depends
    on the engine). *)
Inductive ErrorText : Type :=
| Message (s : string)
| TypeErrorMessage.

(** Outcome of an action whose promise may reject.  Every [throw] of the
    modelled actions happens before their first [set], so a rejected action
    leaves all stores unchanged. *)
Inductive Promise (A : Type) : Type :=
| Resolved (a : A)
| Rejected (msg : string).
Arguments Resolved {A} a.
Arguments Rejected {A} msg.

(** *** src/app/types/global.ts *)

Record User : Type := mkUser {
  user_id : string;
  wins : number;
  email : string;
  losses : number;
  username : string;
  user_createdAt : Z;
  lastActive : Z;
  reputation : number;
  totalMatches : number
}.

Record Match : Type := mkMatch {
  match_id : string;
  status : string;
  winner : string;
  endedAt : Z;
  createdAt : Z;
  player1Id : string;
  player2Id : string;
  startedAt : Z;
  stakeAmount : number;
  player1Score : number;
  player2Score : number
}.

Record Wallet : Type := mkWallet {
  wallet_id : string;
  wallet_userId : string;
  balance : number;
  lastUpdated : Z;
  lockedBalance : number
}.

Record MatchSettings : Type := mkMatchSettings {
  settings_id : string;
  settings_matchId : string;
  maxScore : number;
  ballSpeed : number;
  paddleSize : number;
  settings_description : string
}.

(** ** Wallet store (src/unnamed/part_002, imported as [@/lib/WalletStore]) *)

Module WalletStore.

Definition PLATFORM_FEE_PERCENTAGE : number := Q2Qc (5 # 100).

Inductive TransactionType : Type := deposit_t | withdrawal_t | bet_t | win_t.
Inductive TransactionStatus : Type := pending_s | completed_s | failed_s.

(** The template literal of a transaction's [description], with the value
    it interpolates. *)
Inductive Description : Type :=
| DepositOf (amount : number)
| BetPlacedOnMatch (matchId : string)
| WithdrawalOf (amount : number)
| MatchWinnings (matchId : string).

Record Transaction : Type := mkTransaction {
  tx_id : string;
  tx_userId : string;
  tx_amount : number;
  tx_type : TransactionType;
  tx_status : TransactionStatus;
  tx_timestamp : Z;
  tx_matchId : option string;
  tx_description : Description
}.

Record EscrowHolding : Type := mkEscrowHolding {
  escrow_matchId : string;
  amount : number;
  escrow_player1Id : string;
  escrow_player2Id : string;
  escrow_timestamp : Z
}.

Record WalletStoreState : Type := mkState {
  error : option ErrorText;
  wallets : gmap string Wallet;
  isLoading : bool;
  pendingTransactions : gmap string Transaction;
  escrowHoldings : gmap string EscrowHolding;
  transactionHistory : gmap string Transaction
}.

Definition initialState : WalletStoreState :=
  {| error := None; wallets := ∅; isLoading := false;
     pendingTransactions := ∅; escrowHoldings := ∅; transactionHistory := ∅ |}.

Definition set_error (e : option ErrorText) (s : WalletStoreState) : WalletStoreState :=
  {| error := e; wallets := wallets s; isLoading := isLoading s;
     pendingTransactions := pendingTransactions s;
     escrowHoldings := escrowHoldings s;
     transactionHistory := transactionHistory s |}.

Definition set_isLoading (b : bool) (s : WalletStoreState) : WalletStoreState :=
  {| error := error s; wallets := wallets s; isLoading := b;
     pendingTransactions := pendingTransactions s;
     escrowHoldings := escrowHoldings s;
     transactionHistory := transactionHistory s |}.

(** [state.isLoading = true; state.error = null], the second [set] of every
    action. *)
Definition start_loading (s : WalletStoreState) : WalletStoreState :=
  set_error None (set_isLoading true s).

(** The [catch] and [finally] blocks of an action: when the [try] block
    threw ([inl msg]) the store is still [s] and receives the message in
    [error]; in both cases [isLoading] is reset. *)
Definition settle (s : WalletStoreState) (thrown : ErrorText + WalletStoreState)
  : WalletStoreState :=
  match thrown with
  | inr s' => set_isLoading false s'
  | inl msg => set_isLoading false (set_error (Some msg) s)
  end.

Definition with_balance (f : number → number) (w : Wallet) : Wallet :=
  {| wallet_id := wallet_id w; wallet_userId := wallet_userId w;
     balance := f (balance w); lastUpdated := lastUpdated w;
     lockedBalance := lockedBalance w |}.

Definition with_lockedBalance (f : number → number) (w : Wallet) : Wallet :=
  {| wallet_id := wallet_id w; wallet_userId := wallet_userId w;
     balance := balance w; lastUpdated := lastUpdated w;
     lockedBalance := f (lockedBalance w) |}.

Definition with_lastUpdated (now : Z) (w : Wallet) : Wallet :=
  {| wallet_id := wallet_id w; wallet_userId := wallet_userId w;
     balance := balance w; lastUpdated := now;
     lockedBalance := lockedBalance w |}.

(** One statement [state.wallets[id].field op= v] of a recipe: it throws a
    [TypeError] when [state.wallets[id]] is [undefined]. *)
Definition update_wallet (id : string) (f : Wallet → Wallet)
    (ws : gmap string Wallet) : option (gmap string Wallet) :=
  w ← ws !! id; Some (<[id := f w]> ws).

Definition deposit (userId : string) (amount : number)
    (transactionId walletId : string) (now : Z)
    (s : WalletStoreState) : WalletStoreState :=
  if decide (amount ≤ 0)%Qc then
    set_error (Some (Message "Invalid deposit amount")) s
  else
    let s1 := start_loading s in
    let transaction :=
      {| tx_id := transactionId; tx_userId := userId; tx_amount := amount;
         tx_type := deposit_t; tx_status := pending_s; tx_timestamp := now;
         tx_matchId := None; tx_description := DepositOf amount |} in
    let w0 :=
      match wallets s1 !! userId with
      | Some w => w
      | None =>
          {| wallet_id := walletId; wallet_userId := userId; balance := 0%Qc;
             lastUpdated := now; lockedBalance := 0%Qc |}
      end in
    let w1 := with_lastUpdated now (with_balance (λ b, b + amount)%Qc w0) in
    settle s1 (inr
      {| error := error s1;
         wallets := <[userId := w1]> (wallets s1);
         isLoading := isLoading s1;
         pendingTransactions := <[transactionId := transaction]> (pendingTransactions s1);
         escrowHoldings := escrowHoldings s1;
         transactionHistory :=
           <[transactionId :=
               {| tx_id := transactionId; tx_userId := userId; tx_amount := amount;
                  tx_type := deposit_t; tx_status := completed_s;
                  tx_timestamp := now; tx_matchId := None;
                  tx_description := DepositOf amount |}]>
             (transactionHistory s1) |}).

(** [placeBet] reads the match from the game store's [activeMatches], which
    is passed as [activeMatches]. *)
Definition placeBet (activeMatches : gmap string Match)
    (userId matchId : string) (amount : number)
    (transactionId : string) (now : Z)
    (s : WalletStoreState) : WalletStoreState :=
  match wallets s !! userId with
  | None => set_error (Some (Message "Insufficient funds")) s
  | Some wallet =>
      if decide (balance wallet - lockedBalance wallet < amount)%Qc then
        set_error (Some (Message "Insufficient funds")) s
      else
        let s1 := start_loading s in
        settle s1
          match activeMatches !! matchId with
          | None => inl (Message "Match not found")
          | Some m =>
              let escrowHolding :=
                {| escrow_matchId := matchId; amount := amount;
                   escrow_player1Id := player1Id m;
                   escrow_player2Id := player2Id m;
                   escrow_timestamp := now |} in
              match update_wallet userId
                      (with_lockedBalance (λ l, l + amount)%Qc) (wallets s1) with
              | None => inl TypeErrorMessage
              | Some ws =>
                  inr {| error := error s1;
                         wallets := ws;
                         isLoading := isLoading s1;
                         pendingTransactions := pendingTransactions s1;
                         escrowHoldings := <[matchId := escrowHolding]> (escrowHoldings s1);
                         transactionHistory :=
                           <[transactionId :=
                               {| tx_id := transactionId; tx_userId := userId;
                                  tx_amount := amount; tx_type := bet_t;
                                  tx_status := completed_s; tx_timestamp := now;
                                  tx_matchId := Some matchId;
                                  tx_description := BetPlacedOnMatch matchId |}]>
                             (transactionHistory s1) |}
              end
          end
  end.

Definition withdraw (userId : string) (amount : number)
    (transactionId : string) (now : Z)
    (s : WalletStoreState) : WalletStoreState :=
  match wallets s !! userId with
  | None => set_error (Some (Message "Insufficient available balance")) s
  | Some wallet =>
      if decide (balance wallet - lockedBalance wallet < amount)%Qc then
        set_error (Some (Message "Insufficient available balance")) s
      else
        let s1 := start_loading s in
        settle s1
          match update_wallet userId (with_balance (λ b, b - amount)%Qc) (wallets s1)
                ≫= update_wallet userId (with_lastUpdated now) with
          | None => inl TypeErrorMessage
          | Some ws =>
              inr {| error := error s1;
                     wallets := ws;
                     isLoading := isLoading s1;
                     pendingTransactions := pendingTransactions s1;
                     escrowHoldings := escrowHoldings s1;
                     transactionHistory :=
                       <[transactionId :=
                           {| tx_id := transactionId; tx_userId := userId;
                              tx_amount := amount; tx_type := withdrawal_t;
                              tx_status := completed_s; tx_timestamp := now;
                              tx_matchId := None;
                              tx_description := WithdrawalOf amount |}]>
                         (transactionHistory s1) |}
          end
  end.

Definition totalPot (escrow : EscrowHolding) : number := (amount escrow * num 2)%Qc.
Definition platformFee (escrow : EscrowHolding) : number :=
  (totalPot escrow * PLATFORM_FEE_PERCENTAGE)%Qc.
Definition winningAmount (escrow : EscrowHolding) : number :=
  (totalPot escrow - platformFee escrow)%Qc.

Definition loserOf (escrow : EscrowHolding) (winnerId : string) : string :=
  if decide (escrow_player1Id escrow = winnerId) then escrow_player2Id escrow
  else escrow_player1Id escrow.

(** The wallet part of the payout recipe, statement by statement. *)
Definition payout_wallets (escrow : EscrowHolding) (winnerId : string) (now : Z)
    (ws : gmap string Wallet) : option (gmap string Wallet) :=
  let loserId := loserOf escrow winnerId in
  ws1 ← update_wallet winnerId (with_lockedBalance (λ l, l - amount escrow)%Qc) ws;
  ws2 ← update_wallet loserId (with_lockedBalance (λ l, l - amount escrow)%Qc) ws1;
  ws3 ← update_wallet winnerId (with_balance (λ b, b + winningAmount escrow)%Qc) ws2;
  update_wallet winnerId (with_lastUpdated now) ws3.

Definition processPayout (matchId winnerId : string)
    (transactionId : string) (now : Z)
    (s : WalletStoreState) : WalletStoreState :=
  match escrowHoldings s !! matchId with
  | None => set_error (Some (Message "No escrow found for this match")) s
  | Some escrow =>
      let s1 := start_loading s in
      settle s1
        match payout_wallets escrow winnerId now (wallets s1) with
        | None => inl TypeErrorMessage
        | Some ws =>
            inr {| error := error s1;
                   wallets := ws;
                   isLoading := isLoading s1;
                   pendingTransactions := pendingTransactions s1;
                   escrowHoldings := delete matchId (escrowHoldings s1);
                   transactionHistory :=
                     <[transactionId :=
                         {| tx_id := transactionId; tx_userId := winnerId;
                            tx_amount := winningAmount escrow; tx_type := win_t;
                            tx_status := completed_s; tx_timestamp := now;
                            tx_matchId := Some matchId;
                            tx_description := MatchWinnings matchId |}]>
                       (transactionHistory s1) |}
        end
  end.

Definition getWalletBalance (userId : string) (s : WalletStoreState) : number :=
  match wallets s !! userId with Some w => balance w | None => 0%Qc end.

Definition getLockedBalance (userId : string) (s : WalletStoreState) : number :=
  match wallets s !! userId with Some w => lockedBalance w | None => 0%Qc end.

Definition clearError (s : WalletStoreState) : WalletStoreState := set_error None s.

End WalletStore.

(** *** The arithmetic of the wallet store in binary64

    The same expressions as the engine evaluates them, on doubles: the three
    amounts of [processPayout], and the two updates of a locked balance
    ([+= amount] in [placeBet], [-= escrow.amount] in [processPayout]). *)

Module Binary64.
#[local] Set Warnings "-inexact-float".
Local Open Scope float_scope.

Definition PLATFORM_FEE_PERCENTAGE : float := 0.05.

Definition totalPot (amount : float) : float := amount * 2.
Definition platformFee (amount : float) : float :=
  totalPot amount * PLATFORM_FEE_PERCENTAGE.
Definition winningAmount (amount : float) : float :=
  totalPot amount - platformFee amount.



End Binary64.

(** ** JavaScript objects whose key order is observed

    [Object.entries] lists the string keys that are not array indices in
    the order of their insertion.  The one object read that way is
    [state.users], whose keys are the ids [uuid.v4()] generates, never an
    array index: it is kept as the list of its properties in insertion
    order, and [Object.entries] is that list. *)

Module JsObject.

Abbreviation t V := (list (string * V)) (only parsing).

Fixpoint get {V} (k : string) (o : t V) : option V :=
  match o with
  | [] => None
  | (k', v) :: o' => if decide (k' = k) then Some v else get k o'
  end.

(** [o[k] = v]: an existing property keeps its place, a new one goes last. *)
Fixpoint put {V} (k : string) (v : V) (o : t V) : t V :=
  match o with
  | [] => [(k, v)]
  | (k', v') :: o' => if decide (k' = k) then (k, v) :: o' else (k', v') :: put k v o'
  end.

(** Insertion into a list sorted by [le], after the elements that precede
    or tie with the new one; [stable_sort] is the stable sort it gives. *)
Fixpoint insert_sorted {A} (le : A → A → bool) (x : A) (l : list A) : list A :=
  match l with
  | [] => [x]
  | y :: l' => if le x y then x :: y :: l' else y :: insert_sorted le x l'
  end.

Definition stable_sort {A} (le : A → A → bool) (l : list A) : list A :=
  foldr (insert_sorted le) [] l.

Definition entries {V} (o : t V) : list (string * V) := o.

End JsObject.

(** [Array.prototype.sort(compareFn)]: the sort is stable, and [a] stays
    before [b] when [compareFn(a, b) <= 0]. *)
Definition Array_sort {A} (compareFn : A → A → number) (l : list A) : list A :=
  JsObject.stable_sort (λ a b, bool_decide (compareFn a b ≤ 0)%Qc) l.

(** ** User store (src/lib/UserStore.ts) *)

Module UserStore.

Record Stats : Type := mkStats {
  rank : number;
  winRate : number;
  avgStake : number
}.

Inductive Theme : Type := light | dark.

Record Preferences : Type := mkPreferences {
  notifications : bool;
  theme : Theme;
  soundEnabled : bool
}.

Record LeaderboardEntry : Type := mkEntry {
  userId : string;
  entry_rank : number;
  entry_winRate : number
}.

Record UserStoreState : Type := mkState {
  error : option string;
  users : JsObject.t User;
  isLoading : bool;
  userStats : gmap string Stats;
  currentUser : option User;
  lastUpdated : option Z;
  userPreferences : gmap string Preferences;
  matchHistory : gmap string (list string);
  cachedLeaderboard : option (list LeaderboardEntry);
  cachedLeaderboardExpiry : option Z
}.

Definition initialState : UserStoreState :=
  {| error := None; users := []; isLoading := false; userStats := ∅;
     currentUser := None; lastUpdated := None; userPreferences := ∅;
     matchHistory := ∅; cachedLeaderboard := None;
     cachedLeaderboardExpiry := None |}.

Definition LEADERBOARD_CACHE_DURATION : Z := 5 * 60 * 1000.

Definition updateStats (id : string) (won : bool) (stake : number) (now : Z)
    (s : UserStoreState) : UserStoreState :=
  match JsObject.get id (users s) with
  | None => s
  | Some user =>
      let user' :=
        {| user_id := user_id user;
           wins := (wins user + (if won then num 1 else num 0))%Qc;
           email := email user;
           losses := (losses user + (if won then num 0 else num 1))%Qc;
           username := username user;
           user_createdAt := user_createdAt user;
           lastActive := lastActive user;
           reputation := reputation user;
           totalMatches := (totalMatches user + num 1)%Qc |} in
      let stats :=
        default {| rank := num 0; winRate := num 0; avgStake := num 0 |}
                (userStats s !! id) in
      let stats' :=
        {| rank := rank stats;
           winRate := (wins user' / totalMatches user' * num 100)%Qc;
           avgStake :=
             ((avgStake stats * (totalMatches user' - num 1) + stake)
              / totalMatches user')%Qc |} in
      {| error := error s;
         users := JsObject.put id user' (users s);
         isLoading := isLoading s;
         userStats := <[id := stats']> (userStats s);
         currentUser := currentUser s;
         lastUpdated := Some now;
         userPreferences := userPreferences s;
         matchHistory := matchHistory s;
         cachedLeaderboard := cachedLeaderboard s;
         cachedLeaderboardExpiry := cachedLeaderboardExpiry s |}
  end.

(** [Partial<User>], the argument of [updateProfile]. *)
Record UserUpdates : Type := mkUserUpdates {
  upd_id : option string;
  upd_wins : option number;
  upd_email : option string;
  upd_losses : option number;
  upd_username : option string;
  upd_createdAt : option Z;
  upd_lastActive : option Z;
  upd_reputation : option number;
  upd_totalMatches : option number
}.

Definition assign_user (user : User) (u : UserUpdates) : User :=
  {| user_id := default (user_id user) (upd_id u);
     wins := default (wins user) (upd_wins u);
     email := default (email user) (upd_email u);
     losses := default (losses user) (upd_losses u);
     username := default (username user) (upd_username u);
     user_createdAt := default (user_createdAt user) (upd_createdAt u);
     lastActive := default (lastActive user) (upd_lastActive u);
     reputation := default (reputation user) (upd_reputation u);
     totalMatches := default (totalMatches user) (upd_totalMatches u) |}.

Definition updateProfile (id : string) (updates : UserUpdates) (now : Z)
    (s : UserStoreState) : UserStoreState :=
  match JsObject.get id (users s) with
  | None => s
  | Some user =>
      {| error := error s;
         users := JsObject.put id (assign_user user updates) (users s);
         isLoading := isLoading s;
         userStats := userStats s;
         currentUser := currentUser s;
         lastUpdated := Some now;
         userPreferences := userPreferences s;
         matchHistory := matchHistory s;
         cachedLeaderboard := cachedLeaderboard s;
         cachedLeaderboardExpiry := cachedLeaderboardExpiry s |}
  end.

(** [b.winRate - a.winRate] *)
Definition compareWinRate (a b : LeaderboardEntry) : number :=
  (entry_winRate b - entry_winRate a)%Qc.

Definition entryOf (s : UserStoreState) (kv : string * User) : LeaderboardEntry :=
  {| userId := fst kv;
     entry_rank := default (num 0) (rank <$> userStats s !! fst kv);
     entry_winRate := default (num 0) (winRate <$> userStats s !! fst kv) |}.

Definition withRank (index : nat) (entry : LeaderboardEntry) : LeaderboardEntry :=
  {| userId := userId entry;
     entry_rank := num (Z.of_nat index + 1);
     entry_winRate := entry_winRate entry |}.

Definition computeLeaderboard (s : UserStoreState) : list LeaderboardEntry :=
  imap withRank (Array_sort compareWinRate (entryOf s <$> JsObject.entries (users s))).

(** The test [cachedLeaderboard && cachedLeaderboardExpiry && expiry > now]:
    the cached snapshot that may be served at [now], if any. *)
Definition cacheHit (now : Z) (s : UserStoreState) : option (list LeaderboardEntry) :=
  match cachedLeaderboard s, cachedLeaderboardExpiry s with
  | Some cached, Some expiry => if decide (now < expiry)%Z then Some cached else None
  | _, _ => None
  end.

Definition fetchLeaderboard (now : Z) (s : UserStoreState)
  : list LeaderboardEntry * UserStoreState :=
  match cacheHit now s with
  | Some cached => (cached, s)
  | None =>
      let leaderboard := computeLeaderboard s in
      (leaderboard,
       {| error := error s;
          users := users s;
          isLoading := isLoading s;
          userStats := userStats s;
          currentUser := currentUser s;
          lastUpdated := lastUpdated s;
          userPreferences := userPreferences s;
          matchHistory := matchHistory s;
          cachedLeaderboard := Some leaderboard;
          cachedLeaderboardExpiry := Some (now + LEADERBOARD_CACHE_DURATION) |})
  end.

(** [Omit<User, 'id'>] as [initializeUser] spreads it over its defaults: the
    counters and dates it does not carry keep the default. *)
Record UserData : Type := mkUserData {
  data_wins : option number;
  data_email : string;
  data_losses : option number;
  data_username : string;
  data_createdAt : option Z;
  data_lastActive : option Z;
  data_reputation : option number;
  data_totalMatches : option number
}.

Definition initializeUser (userData : UserData) (id : string) (now : Z)
    (s : UserStoreState) : string * UserStoreState :=
  let newUser :=
    {| user_id := id;
       wins := default (num 0) (data_wins userData);
       email := data_email userData;
       losses := default (num 0) (data_losses userData);
       username := data_username userData;
       user_createdAt := default now (data_createdAt userData);
       lastActive := default now (data_lastActive userData);
       reputation := default (num 100) (data_reputation userData);
       totalMatches := default (num 0) (data_totalMatches userData) |} in
  (id,
   {| error := error s;
      users := JsObject.put id newUser (users s);
      isLoading := isLoading s;
      userStats :=
        <[id := {| rank := num 0; winRate := num 0; avgStake := num 0 |}]> (userStats s);
      currentUser := currentUser s;
      lastUpdated := Some now;
      userPreferences :=
        <[id := {| notifications := true; theme := light; soundEnabled := true |}]>
          (userPreferences s);
      matchHistory := <[id := []]> (matchHistory s);
      cachedLeaderboard := cachedLeaderboard s;
      cachedLeaderboardExpiry := cachedLeaderboardExpiry s |}).

Record PreferenceUpdates : Type := mkPreferenceUpdates {
  upd_notifications : option bool;
  upd_theme : option Theme;
  upd_soundEnabled : option bool
}.

Definition assign_preferences (p : Preferences) (u : PreferenceUpdates) : Preferences :=
  {| notifications := default (notifications p) (upd_notifications u);
     theme := default (theme p) (upd_theme u);
     soundEnabled := default (soundEnabled p) (upd_soundEnabled u) |}.

Definition updateUserPreferences (id : string) (preferences : PreferenceUpdates)
    (s : UserStoreState) : UserStoreState :=
  match userPreferences s !! id with
  | None => s
  | Some p =>
      {| error := error s; users := users s; isLoading := isLoading s;
         userStats := userStats s; currentUser := currentUser s;
         lastUpdated := lastUpdated s;
         userPreferences := <[id := assign_preferences p preferences]> (userPreferences s);
         matchHistory := matchHistory s;
         cachedLeaderboard := cachedLeaderboard s;
         cachedLeaderboardExpiry := cachedLeaderboardExpiry s |}
  end.

Definition addMatchToHistory (id matchId : string) (s : UserStoreState) : UserStoreState :=
  {| error := error s; users := users s; isLoading := isLoading s;
     userStats := userStats s; currentUser := currentUser s;
     lastUpdated := lastUpdated s;
     userPreferences := userPreferences s;
     matchHistory := <[id := matchId :: default [] (matchHistory s !! id)]> (matchHistory s);
     cachedLeaderboard := cachedLeaderboard s;
     cachedLeaderboardExpiry := cachedLeaderboardExpiry s |}.

Definition setError (e : option string) (s : UserStoreState) : UserStoreState :=
  {| error := e; users := users s; isLoading := isLoading s;
     userStats := userStats s; currentUser := currentUser s;
     lastUpdated := lastUpdated s;
     userPreferences := userPreferences s;
     matchHistory := matchHistory s;
     cachedLeaderboard := cachedLeaderboard s;
     cachedLeaderboardExpiry := cachedLeaderboardExpiry s |}.

Definition clearCache (s : UserStoreState) : UserStoreState :=
  {| error := error s; users := users s; isLoading := isLoading s;
     userStats := userStats s; currentUser := currentUser s;
     lastUpdated := lastUpdated s;
     userPreferences := userPreferences s;
     matchHistory := matchHistory s;
     cachedLeaderboard := None;
     cachedLeaderboardExpiry := None |}.

(** The actions of the store, to speak about what happens between two
    calls. *)
Inductive Action : Type :=
| UpdateStats (id : string) (won : bool) (stake : number) (now : Z)
| UpdateProfile (id : string) (updates : UserUpdates) (now : Z)
| FetchLeaderboard (now : Z)
| InitializeUser (userData : UserData) (id : string) (now : Z)
| UpdateUserPreferences (id : string) (preferences : PreferenceUpdates)
| AddMatchToHistory (id matchId : string)
| CalculateRank (id : string)
| SetError (e : option string)
| ClearCache.

Definition run (a : Action) (s : UserStoreState) : UserStoreState :=
  match a with
  | UpdateStats id won stake now => updateStats id won stake now s
  | UpdateProfile id updates now => updateProfile id updates now s
  | FetchLeaderboard now => snd (fetchLeaderboard now s)
  | InitializeUser userData id now => snd (initializeUser userData id now s)
  | UpdateUserPreferences id preferences => updateUserPreferences id preferences s
  | AddMatchToHistory id matchId => addMatchToHistory id matchId s
  | CalculateRank _ => s
  | SetError e => setError e s
  | ClearCache => clearCache s
  end.

Definition runAll (l : list Action) (s : UserStoreState) : UserStoreState :=
  foldl (λ s a, run a s) s l.

(** An action that may come before a call of [fetchLeaderboard] made at
    [t]: it is not [clearCache], and if it is itself a call of
    [fetchLeaderboard] it is not made later than [t]. *)
Definition intervening (t : Z) (a : Action) : Prop :=
  match a with
  | ClearCache => False
  | FetchLeaderboard now => (now ≤ t)%Z
  | _ => True
  end.

(** The results of the matches of one user, settled one after the other:
    each is a call of [updateStats] with [won], [stake] and the time of the
    call. *)
Definition recordMatches (id : string) (results : list (bool * number * Z))
    (s : UserStoreState) : UserStoreState :=
  foldl (λ s r, updateStats id (fst (fst r)) (snd (fst r)) (snd r) s) s results.

Definition winsOf (results : list (bool * number * Z)) : nat :=
  length (filter (λ r, fst (fst r) = true) results).

End UserStore.

(** ** Game store (src/lib/GameStore.ts)

    The actions of the game store call into the two other stores; they are
    functions on the three stores together. *)

Module GameStore.

Record Position : Type := mkPosition { x : number; y : number }.
Record Scores : Type := mkScores { player1 : number; player2 : number }.

Record GameState : Type := mkGameState {
  ballPosition : Position;
  player1Position : number;
  player2Position : number;
  scores : Scores;
  lastUpdate : Z
}.

Record GameStoreState : Type := mkState {
  error : option string;
  isLoading : bool;
  gameStates : gmap string GameState;
  activeMatches : gmap string Match;
  matchSettings : gmap string MatchSettings;
  matchHistory : gmap string Match;
  pendingMatches : gmap string Match;
  playerReadyStatus : gmap string (gset string)
}.

Definition initialState : GameStoreState :=
  {| error := None; isLoading := false; gameStates := ∅; activeMatches := ∅;
     matchSettings := ∅; matchHistory := ∅; pendingMatches := ∅;
     playerReadyStatus := ∅ |}.

Record Stores : Type := mkStores {
  game : GameStoreState;
  wallet : WalletStore.WalletStoreState;
  user : UserStore.UserStoreState
}.

Definition initialStores : Stores :=
  {| game := initialState; wallet := WalletStore.initialState;
     user := UserStore.initialState |}.

(** [createMatch(matchData)].  [rootUserId] is [useRootStore.getState().userId];
    of [matchData] (an [Omit<Match, 'id'>]) the spread keeps the two player
    ids and the stake, its other fields are overwritten. *)
Definition createMatch (rootUserId : option string) (matchData : Match)
    (matchId transactionId : string) (now : Z) (w : Stores)
  : Promise (string * Stores) :=
  match rootUserId with
  | None => Rejected "User not authenticated"
  | Some userId =>
      if decide (userId = "") then Rejected "User not authenticated"
      else
        match WalletStore.wallets (wallet w) !! userId with
        | None => Rejected "Insufficient funds"
        | Some userWallet =>
            if decide (balance userWallet < stakeAmount matchData)%Qc then
              Rejected "Insufficient funds"
            else
              let g := game w in
              let g1 :=
                {| error := error g; isLoading := isLoading g;
                   gameStates := gameStates g;
                   activeMatches := activeMatches g;
                   matchSettings := matchSettings g;
                   matchHistory := matchHistory g;
                   pendingMatches :=
                     <[matchId :=
                         {| match_id := matchId; status := "pending"; winner := "";
                            endedAt := now; createdAt := now;
                            player1Id := player1Id matchData;
                            player2Id := player2Id matchData;
                            startedAt := now;
                            stakeAmount := stakeAmount matchData;
                            player1Score := num 0; player2Score := num 0 |}]>
                       (pendingMatches g);
                   playerReadyStatus := playerReadyStatus g |} in
              Resolved
                (matchId,
                 {| game := g1;
                    wallet :=
                      WalletStore.placeBet (activeMatches g1) userId matchId
                        (stakeAmount matchData) transactionId now (wallet w);
                    user := user w |})
        end
  end.

Definition otherPlayer (m : Match) (playerId : string) : string :=
  if decide (playerId = player1Id m) then player2Id m else player1Id m.

(** [endMatch(matchId, winner)].  The three calls handed to [Promise.all]
    start in order, and each does all its [set] calls before its first
    [await]. *)
Definition endMatch (matchId winner : string) (transactionId : string) (now : Z)
    (w : Stores) : Promise (unit * Stores) :=
  let g := game w in
  match activeMatches g !! matchId with
  | None => Rejected "Match not found"
  | Some m =>
      let matchToEnd :=
        {| match_id := match_id m; status := "completed"; winner := winner;
           endedAt := now; createdAt := createdAt m;
           player1Id := player1Id m; player2Id := player2Id m;
           startedAt := startedAt m; stakeAmount := stakeAmount m;
           player1Score := player1Score m; player2Score := player2Score m |} in
      Resolved
        (tt,
         {| game :=
              {| error := error g; isLoading := isLoading g;
                 gameStates := delete matchId (gameStates g);
                 activeMatches := delete matchId (activeMatches g);
                 matchSettings := matchSettings g;
                 matchHistory := <[matchId := matchToEnd]> (matchHistory g);
                 pendingMatches := pendingMatches g;
                 playerReadyStatus := playerReadyStatus g |};
            wallet := WalletStore.processPayout matchId winner transactionId now (wallet w);
            user :=
              UserStore.updateStats (otherPlayer m winner) false (stakeAmount m) now
                (UserStore.updateStats winner true (stakeAmount m) now (user w)) |})
  end.

Definition forfeitMatch (matchId forfeitingPlayerId : string)
    (transactionId : string) (now : Z) (w : Stores) : Promise (unit * Stores) :=
  match activeMatches (game w) !! matchId with
  | None => Rejected "Match not found"
  | Some m =>
      let winnerId :=
        if decide (player1Id m = forfeitingPlayerId) then player2Id m
        else player1Id m in
      endMatch matchId winnerId transactionId now w
  end.

Definition joinMatch (matchId playerId : string) (transactionId : string) (now : Z)
    (w : Stores) : Promise (unit * Stores) :=
  let g := game w in
  match pendingMatches g !! matchId with
  | None => Rejected "Match not found"
  | Some m =>
      match WalletStore.wallets (wallet w) !! playerId with
      | None => Rejected "Insufficient funds"
      | Some userWallet =>
          if decide (balance userWallet < stakeAmount m)%Qc then
            Rejected "Insufficient funds"
          else
            let g1 :=
              {| error := error g; isLoading := isLoading g;
                 gameStates := gameStates g;
                 activeMatches :=
                   <[matchId :=
                       {| match_id := match_id m; status := "active";
                          winner := winner m; endedAt := endedAt m;
                          createdAt := createdAt m; player1Id := player1Id m;
                          player2Id := playerId; startedAt := now;
                          stakeAmount := stakeAmount m;
                          player1Score := player1Score m;
                          player2Score := player2Score m |}]>
                     (activeMatches g);
                 matchSettings := matchSettings g;
                 matchHistory := matchHistory g;
                 pendingMatches := delete matchId (pendingMatches g);
                 playerReadyStatus := <[matchId := ∅]> (playerReadyStatus g) |} in
            Resolved
              (tt,
               {| game := g1;
                  wallet :=
                    WalletStore.placeBet (activeMatches g1) playerId matchId
                      (stakeAmount m) transactionId now (wallet w);
                  user := user w |})
      end
  end.

Definition leaveMatch (matchId playerId : string) (w : Stores) : Stores :=
  let g := game w in
  {| game :=
       {| error := error g; isLoading := isLoading g;
          gameStates := delete matchId (gameStates g);
          activeMatches := delete matchId (activeMatches g);
          matchSettings := matchSettings g;
          matchHistory := matchHistory g;
          pendingMatches := pendingMatches g;
          playerReadyStatus := delete matchId (playerReadyStatus g) |};
     wallet := wallet w;
     user := user w |}.

(** [Partial<GameState>], the argument of [updateGameState]. *)
Record GameStateUpdates : Type := mkGameStateUpdates {
  new_ballPosition : option Position;
  new_player1Position : option number;
  new_player2Position : option number;
  new_scores : option Scores;
  new_lastUpdate : option Z
}.

(** The game state both [updateGameState] and [resetMatch] start from. *)
Definition centred (now : Z) : GameState :=
  {| ballPosition := {| x := Q2Qc (5 # 10); y := Q2Qc (5 # 10) |};
     player1Position := Q2Qc (5 # 10);
     player2Position := Q2Qc (5 # 10);
     scores := {| player1 := num 0; player2 := num 0 |};
     lastUpdate := now |}.

Definition with_gameStates (gs : gmap string GameState) (g : GameStoreState)
  : GameStoreState :=
  {| error := error g; isLoading := isLoading g; gameStates := gs;
     activeMatches := activeMatches g; matchSettings := matchSettings g;
     matchHistory := matchHistory g; pendingMatches := pendingMatches g;
     playerReadyStatus := playerReadyStatus g |}.

(** [updateGameState(matchId, gameState)]: the properties of [gameState]
    are spread over the stored state (or over the centred one), and
    [lastUpdate] is written last. *)
Definition updateGameState (matchId : string) (gameState : GameStateUpdates)
    (now : Z) (g : GameStoreState) : GameStoreState :=
  let base := default (centred now) (gameStates g !! matchId) in
  with_gameStates
    (<[matchId :=
         {| ballPosition := default (ballPosition base) (new_ballPosition gameState);
            player1Position :=
              default (player1Position base) (new_player1Position gameState);
            player2Position :=
              default (player2Position base) (new_player2Position gameState);
            scores := default (scores base) (new_scores gameState);
            lastUpdate := now |}]> (gameStates g)) g.

(** [setPlayerReady(matchId, playerId)].  The recipe reads
    [state.playerReadyStatus[matchId]] through the immer draft.  A stored
    [Set] can only be drafted with immer's MapSet plugin, which these
    sources never enable: where the match has a readiness record the read
    throws, nothing catches it, and the store keeps its state ([None]).
    Where it has none, the recipe stores a new [Set], which it reads back as
    it is, and adds the player to it. *)
Definition setPlayerReady (matchId playerId : string) (g : GameStoreState)
  : option GameStoreState :=
  match playerReadyStatus g !! matchId with
  | Some _ => None
  | None =>
      Some {| error := error g; isLoading := isLoading g;
              gameStates := gameStates g;
              activeMatches := activeMatches g; matchSettings := matchSettings g;
              matchHistory := matchHistory g; pendingMatches := pendingMatches g;
              playerReadyStatus := <[matchId := {[playerId]}]> (playerReadyStatus g) |}
  end.

Definition resetMatch (matchId : string) (now : Z) (g : GameStoreState)
  : GameStoreState :=
  match gameStates g !! matchId with
  | None => g
  | Some _ => with_gameStates (<[matchId := centred now]> (gameStates g)) g
  end.

(** [Partial<MatchSettings>], the argument of [updateMatchSettings]. *)
Record MatchSettingsUpdates : Type := mkMatchSettingsUpdates {
  new_id : option string;
  new_matchId : option string;
  new_maxScore : option number;
  new_ballSpeed : option number;
  new_paddleSize : option number;
  new_description : option string
}.

(** [updateMatchSettings(matchId, settings)]; [settingsId] is the
    [uuid.v4()] of the default record. *)
Definition updateMatchSettings (matchId : string) (settings : MatchSettingsUpdates)
    (settingsId : string) (g : GameStoreState) : GameStoreState :=
  let base :=
    default {| settings_id := settingsId; settings_matchId := matchId;
               maxScore := num 11; ballSpeed := num 1; paddleSize := num 1;
               settings_description := "" |}
            (matchSettings g !! matchId) in
  {| error := error g; isLoading := isLoading g; gameStates := gameStates g;
     activeMatches := activeMatches g;
     matchSettings :=
       <[matchId :=
           {| settings_id := default (settings_id base) (new_id settings);
              settings_matchId := default (settings_matchId base) (new_matchId settings);
              maxScore := default (maxScore base) (new_maxScore settings);
              ballSpeed := default (ballSpeed base) (new_ballSpeed settings);
              paddleSize := default (paddleSize base) (new_paddleSize settings);
              settings_description :=
                default (settings_description base) (new_description settings) |}]>
         (matchSettings g);
     matchHistory := matchHistory g; pendingMatches := pendingMatches g;
     playerReadyStatus := playerReadyStatus g |}.

(** The update that two successive updates amount to: a property of the
    later one wins, a property it lacks is taken from the earlier one. *)
Definition orElse {A} (later earlier : option A) : option A :=
  match later with Some v => Some v | None => earlier end.

Definition spread (later earlier : GameStateUpdates) : GameStateUpdates :=
  {| new_ballPosition := orElse (new_ballPosition later) (new_ballPosition earlier);
     new_player1Position :=
       orElse (new_player1Position later) (new_player1Position earlier);
     new_player2Position :=
       orElse (new_player2Position later) (new_player2Position earlier);
     new_scores := orElse (new_scores later) (new_scores earlier);
     new_lastUpdate := orElse (new_lastUpdate later) (new_lastUpdate earlier) |}.

(** [useUserStore().currentUser], read from the stores. *)
Definition UserStore_currentUser (w : Stores) : option User :=
  UserStore.currentUser (user w).

(** The actions that only touch the game states, the readiness records and
    the match settings, as values; a call that throws leaves the store as it
    is. *)
Inductive GameAction : Type :=
| UpdateGameState (matchId : string) (gameState : GameStateUpdates) (now : Z)
| SetPlayerReady (matchId playerId : string)
| ResetMatch (matchId : string) (now : Z)
| UpdateMatchSettings (matchId : string) (settings : MatchSettingsUpdates)
    (settingsId : string).

Definition runGame (a : GameAction) (g : GameStoreState) : GameStoreState :=
  match a with
  | UpdateGameState m gs now => updateGameState m gs now g
  | SetPlayerReady m p => default g (setPlayerReady m p g)
  | ResetMatch m now => resetMatch m now g
  | UpdateMatchSettings m st sid => updateMatchSettings m st sid g
  end.

Definition runGameAll (l : list GameAction) (g : GameStoreState) : GameStoreState :=
  foldl (λ g a, runGame a g) g l.

End GameStore.

(** ** Create-match screen (src/app/screens/CreateMatchScreen/index.tsx)

    The derived state and the handler of the screen; of its React state,
    the form ([settings]) is an argument and [isLoading], [error] and the
    route navigated to are the result. *)

Module CreateMatchScreen.

Record Settings : Type := mkSettings {
  stakeAmount : number;
  maxScore : number;
  ballSpeed : number;
  paddleSize : number;
  description : string
}.

Record ScreenState : Type := mkScreenState {
  isLoading : bool;
  error : option string;
  navigatedTo : option string
}.

(** [settings.stakeAmount > 0 && currentWallet && currentWallet.balance >=
    settings.stakeAmount], as the truth value [handleCreateMatch] tests. *)
Definition canCreateMatch (currentUser : option User)
    (wallets : gmap string Wallet) (settings : Settings) : bool :=
  bool_decide (0 < stakeAmount settings)%Qc
  && match currentUser ≫= λ u, wallets !! user_id u with
     | None => false
     | Some currentWallet => bool_decide (stakeAmount settings ≤ balance currentWallet)%Qc
     end.

Definition getCompletionPercentage (settings : Settings) : Z :=
  (if decide (0 < stakeAmount settings)%Qc then 25 else 0)
  + (if decide (description settings = "") then 0 else 25)
  + (if decide (ballSpeed settings = num 50) then 0 else 25)
  + (if decide (paddleSize settings = num 50) then 0 else 25).

(** [handleCreateMatch]: [createMatch], then a bet of the screen's own, then
    the navigation to the lobby; a rejection of [createMatch] is shown as
    the screen's error. *)
Definition handleCreateMatch (settings : Settings) (rootUserId : option string)
    (matchId transactionId transactionId' : string) (now : Z)
    (screen : ScreenState) (w : GameStore.Stores) : ScreenState * GameStore.Stores :=
  match GameStore.UserStore_currentUser w with
  | None => (screen, w)
  | Some currentUser =>
      if canCreateMatch (Some currentUser)
           (WalletStore.wallets (GameStore.wallet w)) settings then
        let matchData :=
          (* status "waiting", winner "", the three dates, player1Id,
             player2Id "", stakeAmount, and the two scores 0 *)
          mkMatch "" "waiting" "" now now (user_id currentUser) "" now
            (stakeAmount settings) (num 0) (num 0) in
        match GameStore.createMatch rootUserId matchData matchId transactionId now w with
        | Rejected msg =>
            ({| isLoading := false; error := Some msg;
                navigatedTo := navigatedTo screen |}, w)
        | Resolved (id, w1) =>
            ({| isLoading := false; error := error screen;
                navigatedTo := Some "Lobby" |},
             {| GameStore.game := GameStore.game w1;
                GameStore.wallet :=
                  WalletStore.placeBet (GameStore.activeMatches (GameStore.game w1))
                    (user_id currentUser) id (stakeAmount settings)
                    transactionId' now (GameStore.wallet w1);
                GameStore.user := GameStore.user w1 |})
        end
      else (screen, w)
  end.

End CreateMatchScreen.

(** ** Wallet screen (src/app/screens/WalletScreen/index.tsx) *)

Module WalletScreen.

(** [pendingAmount]: the sum of the amounts of the entries of
    [pendingTransactions] whose status is pending.  The sum of exact numbers
    does not depend on the order in which [Object.values] lists them. *)
Definition pendingAmount (s : WalletStore.WalletStoreState) : number :=
  map_fold
    (λ _ t sum,
       match WalletStore.tx_status t with
       | WalletStore.pending_s => (sum + WalletStore.tx_amount t)%Qc
       | _ => sum
       end)
    0%Qc (WalletStore.pendingTransactions s).

End WalletScreen.

(** ** Histories of the ledger

    A ledger operation as a value, and the store a list of them leaves,
    starting from a given store and reading the matches of a game store that
    stays as it is meanwhile. *)

Inductive LedgerOp : Type :=
| Deposit (userId : string) (amount : number) (transactionId walletId : string) (now : Z)
| Withdraw (userId : string) (amount : number) (transactionId : string) (now : Z)
| PlaceBet (userId matchId : string) (amount : number) (transactionId : string) (now : Z)
| ProcessPayout (matchId winnerId : string) (transactionId : string) (now : Z).

Definition runLedgerOp (activeMatches : gmap string Match) (op : LedgerOp)
    (s : WalletStore.WalletStoreState) : WalletStore.WalletStoreState :=
  match op with
  | Deposit u a t wid now => WalletStore.deposit u a t wid now s
  | Withdraw u a t now => WalletStore.withdraw u a t now s
  | PlaceBet u m a t now => WalletStore.placeBet activeMatches u m a t now s
  | ProcessPayout m wn t now => WalletStore.processPayout m wn t now s
  end.

Definition runLedger (activeMatches : gmap string Match) (ops : list LedgerOp)
    (s : WalletStore.WalletStoreState) : WalletStore.WalletStoreState :=
  foldl (λ s op, runLedgerOp activeMatches op s) s ops.

(** The invariant of the wallets: [0 <= lockedBalance <= balance]. *)
Definition balanceInvariant (s : WalletStore.WalletStoreState) : Prop :=
  ∀ u w, WalletStore.wallets s !! u = Some w →
         (0 ≤ lockedBalance w)%Qc ∧ (lockedBalance w ≤ balance w)%Qc.

(** The identifier under which an operation records its transaction. *)
Definition transactionIdOf (op : LedgerOp) : string :=
  match op with
  | Deposit _ _ t _ _ => t
  | Withdraw _ _ t _ => t
  | PlaceBet _ _ _ t _ => t
  | ProcessPayout _ _ t _ => t
  end.

(** ** A run of the application

    Two players deposit 100 each; the first creates a match with stake 40,
    the second joins it, and the match ends with the first as winner. *)

Module Scenario.
Import GameStore.

Definition onWallet (f : WalletStore.WalletStoreState → WalletStore.WalletStoreState)
    (w : Stores) : Stores :=
  {| game := game w; wallet := f (wallet w); user := user w |}.

Definition onUser (f : UserStore.UserStoreState → UserStore.UserStoreState)
    (w : Stores) : Stores :=
  {| game := game w; wallet := wallet w; user := f (user w) |}.

(** What a resolved action leaves; the stores as they were if it rejects. *)
Definition after {A} (p : Promise (A * Stores)) (w : Stores) : Stores :=
  match p with Resolved (_, w') => w' | Rejected _ => w end.

Definition newMatch (creator : string) (stake : Z) : Match :=
  {| match_id := ""; status := ""; winner := ""; endedAt := 0; createdAt := 0;
     player1Id := creator; player2Id := ""; startedAt := 0;
     stakeAmount := num stake; player1Score := num 0; player2Score := num 0 |}.

Definition newUser (name : string) : UserStore.UserData :=
  {| UserStore.data_wins := None; UserStore.data_email := name;
     UserStore.data_losses := None; UserStore.data_username := name;
     UserStore.data_createdAt := None; UserStore.data_lastActive := None;
     UserStore.data_reputation := None; UserStore.data_totalMatches := None |}.

Definition registered : Stores :=
  onUser (λ s, snd (UserStore.initializeUser (newUser "bob") "B" 2
                      (snd (UserStore.initializeUser (newUser "alice") "A" 1 s))))
    initialStores.

Definition funded : Stores :=
  onWallet (λ s, WalletStore.deposit "B" (num 100) "t2" "wB" 4
                   (WalletStore.deposit "A" (num 100) "t1" "wA" 3 s))
    registered.

Definition created : Stores :=
  after (createMatch (Some "A") (newMatch "A" 40) "m" "t3" 5 funded) funded.

Definition joined : Stores :=
  after (joinMatch "m" "B" "t4" 6 created) created.

Definition ended : Stores :=
  after (endMatch "m" "A" "t5" 7 joined) joined.

(** The ledger operations of that run, once the match is active. *)
Definition settlement : list LedgerOp :=
  [ Deposit "A" (num 100) "t1" "wA" 3;
    Deposit "B" (num 100) "t2" "wB" 4;
    PlaceBet "B" "m" (num 40) "t4" 6;
    ProcessPayout "m" "A" "t5" 7 ].

(** The first player bets on the active match, and the payout is asked for
    before the second player has a wallet. *)
Definition oneSided : WalletStore.WalletStoreState :=
  WalletStore.placeBet (activeMatches (game joined)) "A" "m" (num 40) "t2" 4
    (WalletStore.deposit "A" (num 100) "t1" "wA" 3 WalletStore.initialState).

(** Both players have bet on the active match. *)
Definition bothBet : WalletStore.WalletStoreState :=
  WalletStore.placeBet (activeMatches (game joined)) "A" "m" (num 40) "t6" 8
    (wallet joined).

(** The second player, 40 of whose 100 are locked, creates a match with
    stake 80. *)
Definition overCommitted : Promise (string * Stores) :=
  createMatch (Some "B") (newMatch "B" 80) "m2" "t6" 8 joined.

(** The first player opens a match with stake 80, and the second player
    joins it with 40 of their 100 locked. *)
Definition opened : Stores :=
  after (createMatch (Some "A") (newMatch "A" 80) "m3" "t7" 9 joined) joined.

Definition overJoined : Promise (unit * Stores) :=
  joinMatch "m3" "B" "t8" 10 opened.

(** Three users registered in the order A, B, C, with the win rates 0.8,
    0.8 and 0.5 in their statistics. *)
Definition threeUsers : UserStore.UserStoreState :=
  let s :=
    snd (UserStore.initializeUser (newUser "carol") "C" 3
           (snd (UserStore.initializeUser (newUser "bob") "B" 2
                   (snd (UserStore.initializeUser (newUser "alice") "A" 1
                           UserStore.initialState))))) in
  {| UserStore.error := UserStore.error s;
     UserStore.users := UserStore.users s;
     UserStore.isLoading := UserStore.isLoading s;
     UserStore.userStats :=
       <["C" := {| UserStore.rank := num 0; UserStore.winRate := Q2Qc (5 # 10);
                   UserStore.avgStake := num 0 |}]>
         (<["B" := {| UserStore.rank := num 0; UserStore.winRate := Q2Qc (8 # 10);
                      UserStore.avgStake := num 0 |}]>
            (<["A" := {| UserStore.rank := num 0; UserStore.winRate := Q2Qc (8 # 10);
                         UserStore.avgStake := num 0 |}]>
               (UserStore.userStats s)));
     UserStore.currentUser := UserStore.currentUser s;
     UserStore.lastUpdated := UserStore.lastUpdated s;
     UserStore.userPreferences := UserStore.userPreferences s;
     UserStore.matchHistory := UserStore.matchHistory s;
     UserStore.cachedLeaderboard := UserStore.cachedLeaderboard s;
     UserStore.cachedLeaderboardExpiry := UserStore.cachedLeaderboardExpiry s |}.

(** The stores of [funded] with the first player as the current user of
    the user store. *)
Definition signedIn : Stores :=
  onUser
    (λ s,
       {| UserStore.error := UserStore.error s;
          UserStore.users := UserStore.users s;
          UserStore.isLoading := UserStore.isLoading s;
          UserStore.userStats := UserStore.userStats s;
          UserStore.currentUser := JsObject.get "A" (UserStore.users s);
          UserStore.lastUpdated := UserStore.lastUpdated s;
          UserStore.userPreferences := UserStore.userPreferences s;
          UserStore.matchHistory := UserStore.matchHistory s;
          UserStore.cachedLeaderboard := UserStore.cachedLeaderboard s;
          UserStore.cachedLeaderboardExpiry := UserStore.cachedLeaderboardExpiry s |})
    funded.

Definition stake40 : CreateMatchScreen.Settings :=
  {| CreateMatchScreen.stakeAmount := num 40;
     CreateMatchScreen.maxScore := num 11;
     CreateMatchScreen.ballSpeed := num 50;
     CreateMatchScreen.paddleSize := num 50;
     CreateMatchScreen.description := "" |}.

Definition idle : CreateMatchScreen.ScreenState :=
  {| CreateMatchScreen.isLoading := false;
     CreateMatchScreen.error := None;
     CreateMatchScreen.navigatedTo := None |}.

(** Deposits, withdrawals and a bet. *)
Definition noPayout : list LedgerOp :=
  [ Deposit "A" (num 100) "t1" "wA" 3;
    PlaceBet "A" "m" (num 40) "t2" 4;
    Withdraw "A" (num 60) "t3" 5;
    Withdraw "A" (num 1) "t4" 6 ].

(** Three matches of the first player: won with stake 40, lost with stake
    10, won with stake 70. *)
Definition threeMatches : list (bool * Qc * Z) :=
  [ (true, num 40, 10%Z); (false, num 10, 11%Z); (true, num 70, 12%Z) ].

(** The three users of [threeUsers] with the win rates 0.5, 0.8 and 0.8:
    the order of insertion is not the order of the ranks. *)
Definition lastFirst : UserStore.UserStoreState :=
  {| UserStore.error := UserStore.error threeUsers;
     UserStore.users := UserStore.users threeUsers;
     UserStore.isLoading := UserStore.isLoading threeUsers;
     UserStore.userStats :=
       <["A" := {| UserStore.rank := num 0; UserStore.winRate := Q2Qc (5 # 10);
                   UserStore.avgStake := num 0 |}]>
         (<["C" := {| UserStore.rank := num 0; UserStore.winRate := Q2Qc (8 # 10);
                      UserStore.avgStake := num 0 |}]>
            (UserStore.userStats threeUsers));
     UserStore.currentUser := UserStore.currentUser threeUsers;
     UserStore.lastUpdated := UserStore.lastUpdated threeUsers;
     UserStore.userPreferences := UserStore.userPreferences threeUsers;
     UserStore.matchHistory := UserStore.matchHistory threeUsers;
     UserStore.cachedLeaderboard := UserStore.cachedLeaderboard threeUsers;
     UserStore.cachedLeaderboardExpiry := UserStore.cachedLeaderboardExpiry threeUsers |}.

End Scenario.

(** * Properties *)

(** Equality of two closed rationals, by evaluation. *)
Ltac qc_eval := apply Qc_is_canon; vm_compute; reflexivity.

(** ** The wallet store *)

Section WalletFacts.
Import WalletStore.

Implicit Types (s : WalletStoreState) (ws : gmap string Wallet).

Lemma update_wallet_Some id f ws w :
  ws !! id = Some w → update_wallet id f ws = Some (<[id := f w]> ws).
Proof. intros Hw. unfold update_wallet. by rewrite Hw. Qed.

(** A payout that finds no escrow only reports it. *)
Lemma processPayout_no_escrow matchId winnerId tx now s :
  escrowHoldings s !! matchId = None →
  processPayout matchId winnerId tx now s
  = set_error (Some (Message "No escrow found for this match")) s.
Proof. intros He. unfold processPayout. by rewrite He. Qed.

(** A payout that ends without an error has deleted the escrow. *)
Lemma processPayout_success_deletes matchId winnerId tx now s :
  error (processPayout matchId winnerId tx now s) = None →
  escrowHoldings (processPayout matchId winnerId tx now s) !! matchId = None.
Proof.
  unfold processPayout.
  destruct (escrowHoldings s !! matchId) as [escrow|]; [|discriminate].
  destruct (payout_wallets escrow winnerId now (wallets (start_loading s)));
    simpl; [|discriminate].
  intros _. apply lookup_delete_eq.
Qed.


(** A bet on an active match by a player who can cover it. *)
Lemma placeBet_active activeMatches userId matchId amt tx now s w m :
  wallets s !! userId = Some w →
  ¬ (balance w - lockedBalance w < amt)%Qc →
  activeMatches !! matchId = Some m →
  placeBet activeMatches userId matchId amt tx now s
  = {| error := None;
       wallets := <[userId := with_lockedBalance (λ l, l + amt)%Qc w]> (wallets s);
       isLoading := false;
       pendingTransactions := pendingTransactions s;
       escrowHoldings :=
         <[matchId := {| escrow_matchId := matchId; amount := amt;
                         escrow_player1Id := player1Id m;
                         escrow_player2Id := player2Id m;
                         escrow_timestamp := now |}]> (escrowHoldings s);
       transactionHistory :=
         <[tx := {| tx_id := tx; tx_userId := userId; tx_amount := amt;
                    tx_type := bet_t; tx_status := completed_s;
                    tx_timestamp := now; tx_matchId := Some matchId;
                    tx_description := BetPlacedOnMatch matchId |}]>
           (transactionHistory s) |}.
Proof.
  intros Hw Hfunds Hm. unfold placeBet. rewrite Hw.
  destruct (decide _) as [?|_]; [done|].
  rewrite Hm. simpl. by rewrite (update_wallet_Some _ _ _ _ Hw).
Qed.

(** A bet on a match that is not among the active ones changes no wallet
    and no escrow: it only leaves an error. *)
Lemma placeBet_not_active activeMatches userId matchId amt tx now s :
  activeMatches !! matchId = None →
  wallets (placeBet activeMatches userId matchId amt tx now s) = wallets s
  ∧ escrowHoldings (placeBet activeMatches userId matchId amt tx now s)
    = escrowHoldings s
  ∧ transactionHistory (placeBet activeMatches userId matchId amt tx now s)
    = transactionHistory s
  ∧ is_Some (error (placeBet activeMatches userId matchId amt tx now s)).
Proof.
  intros Hm. unfold placeBet.
  destruct (wallets s !! userId) as [w|]; [|by eauto].
  destruct (decide _); [by eauto|].
  rewrite Hm. simpl. eauto.
Qed.

End WalletFacts.

Section Ledger.
Import WalletStore.

(** C1.  The bet [createMatch] places for the creator is refused: the new
    match is stored among the pending matches while [placeBet] looks for it
    among the active ones.  After a user with balance 100 has created a
    match with stake 40, the match is pending, no escrow holding exists for
    it, the creator's locked balance is still 0, no transaction was
    recorded, and the wallet store reports "Match not found". *)
Theorem createMatch_stake_not_escrowed :
  GameStore.createMatch (Some "A") (Scenario.newMatch "A" 40) "m" "t3" 5 Scenario.funded
  = Resolved ("m", Scenario.created)
  ∧ getWalletBalance "A" (GameStore.wallet Scenario.funded) = num 100
  ∧ getLockedBalance "A" (GameStore.wallet Scenario.funded) = num 0
  ∧ (status <$> GameStore.pendingMatches (GameStore.game Scenario.created) !! "m")
    = Some "pending"
  ∧ GameStore.activeMatches (GameStore.game Scenario.created) !! "m" = None
  ∧ escrowHoldings (GameStore.wallet Scenario.created) !! "m" = None
  ∧ getLockedBalance "A" (GameStore.wallet Scenario.created) = num 0
  ∧ transactionHistory (GameStore.wallet Scenario.created) !! "t3" = None
  ∧ error (GameStore.wallet Scenario.created) = Some (Message "Match not found").
Proof.
  split; [vm_compute; reflexivity|].
  split; [qc_eval|]. split; [qc_eval|].
  split; [vm_compute; reflexivity|]. split; [vm_compute; reflexivity|].
  split; [vm_compute; reflexivity|]. split; [qc_eval|].
  split; vm_compute; reflexivity.
Qed.




(** C3.  After a payout for a match that ended without an error, a second
    payout for the same match reports that there is no escrow for it, and
    changes no wallet (nor the escrow holdings and the transaction
    history). *)
Theorem processPayout_twice s matchId winnerId tx now winnerId' tx' now' :
  error (processPayout matchId winnerId tx now s) = None →
  error (processPayout matchId winnerId' tx' now'
           (processPayout matchId winnerId tx now s))
  = Some (Message "No escrow found for this match")
  ∧ wallets (processPayout matchId winnerId' tx' now'
               (processPayout matchId winnerId tx now s))
    = wallets (processPayout matchId winnerId tx now s)
  ∧ (∀ u,
       getWalletBalance u (processPayout matchId winnerId' tx' now'
                             (processPayout matchId winnerId tx now s))
       = getWalletBalance u (processPayout matchId winnerId tx now s)
       ∧ getLockedBalance u (processPayout matchId winnerId' tx' now'
                               (processPayout matchId winnerId tx now s))
         = getLockedBalance u (processPayout matchId winnerId tx now s))
  ∧ escrowHoldings (processPayout matchId winnerId' tx' now'
                      (processPayout matchId winnerId tx now s))
    = escrowHoldings (processPayout matchId winnerId tx now s)
  ∧ transactionHistory (processPayout matchId winnerId' tx' now'
                          (processPayout matchId winnerId tx now s))
    = transactionHistory (processPayout matchId winnerId tx now s).
Proof.
  intros Hok.
  pose proof (processPayout_success_deletes _ _ _ _ _ Hok) as Hgone.
  rewrite (processPayout_no_escrow _ winnerId' tx' now' _ Hgone).
  repeat split.
Qed.

(** The instance of [processPayout_twice] at the match of
    [Scenario.bothBet]: paid out to its first player, then asked again for
    its second. *)
Lemma processPayout_twice_witness :
  error (processPayout "m" "A" "t9" 9 Scenario.bothBet) = None
  ∧ error (processPayout "m" "B" "t10" 10
             (processPayout "m" "A" "t9" 9 Scenario.bothBet))
    = Some (Message "No escrow found for this match").
Proof.
  split; [vm_compute; reflexivity|].
  apply (processPayout_twice Scenario.bothBet "m" "A" "t9" 9 "B" "t10" 10).
  vm_compute; reflexivity.
Defined.

(** C4.  The invariant is broken by a history of ledger operations with
    positive amounts only: [processPayout] lowers the locked balance of both
    players of the match although only one of them has placed a bet.  After
    the two deposits, the bet of the second player and the payout to the
    first, the locked balance of the first player is -40. *)
Theorem settlement_breaks_balance_invariant :
  let s :=
    runLedger (GameStore.activeMatches (GameStore.game Scenario.joined))
      Scenario.settlement initialState in
  getLockedBalance "A" s = num (-40)
  ∧ getWalletBalance "A" s = num 176
  ∧ ¬ (0 ≤ getLockedBalance "A" s)%Qc
  ∧ ¬ balanceInvariant s
  ∧ getLockedBalance "A" (GameStore.wallet Scenario.ended) = num (-40).
Proof.
  cbv zeta.
  assert (Hneg : ¬ (0 ≤ getLockedBalance "A"
                      (runLedger (GameStore.activeMatches (GameStore.game Scenario.joined))
                         Scenario.settlement initialState))%Qc)
    by (apply Qclt_not_le; vm_compute; reflexivity).
  split; [qc_eval|]. split; [qc_eval|]. split; [exact Hneg|].
  split; [|qc_eval].
  intros Hinv. apply Hneg. unfold getLockedBalance.
  destruct (wallets _ !! "A") as [w|] eqn:Hw; [|done].
  by destruct (Hinv _ _ Hw).
Qed.

End Ledger.

(** ** The match coordinator *)

Section Coordinator.
Import GameStore.

Implicit Types (w : Stores) (m : Match).

(** When [createMatch] and [joinMatch] reject for lack of funds: the test
    reads the total balance of the wallet, not what is left of it once the
    locked part is taken off. *)
Lemma createMatch_insufficient_iff userId matchData matchId tx now w :
  userId ≠ "" →
  createMatch (Some userId) matchData matchId tx now w = Rejected "Insufficient funds"
  ↔ match WalletStore.wallets (wallet w) !! userId with
    | None => True
    | Some userWallet => (balance userWallet < stakeAmount matchData)%Qc
    end.
Proof.
  intros Hid. unfold createMatch.
  destruct (decide (userId = "")) as [?|_]; [done|].
  destruct (WalletStore.wallets (wallet w) !! userId) as [uw|]; [|done].
  destruct (decide (balance uw < stakeAmount matchData)%Qc); split; try done.
Qed.

Lemma joinMatch_insufficient_iff matchId playerId tx now w m :
  pendingMatches (game w) !! matchId = Some m →
  joinMatch matchId playerId tx now w = Rejected "Insufficient funds"
  ↔ match WalletStore.wallets (wallet w) !! playerId with
    | None => True
    | Some userWallet => (balance userWallet < stakeAmount m)%Qc
    end.
Proof.
  intros Hm. unfold joinMatch. rewrite Hm.
  destruct (WalletStore.wallets (wallet w) !! playerId) as [uw|]; [|done].
  destruct (decide (balance uw < stakeAmount m)%Qc); split; try done.
Qed.

(** A match [createMatch] has just stored is pending, so the bet made for
    it changes neither a wallet nor an escrow holding. *)
Lemma createMatch_places_no_bet rootUserId matchData matchId tx now w id w' :
  activeMatches (game w) !! matchId = None →
  createMatch rootUserId matchData matchId tx now w = Resolved (id, w') →
  WalletStore.wallets (wallet w') = WalletStore.wallets (wallet w)
  ∧ WalletStore.escrowHoldings (wallet w') = WalletStore.escrowHoldings (wallet w).
Proof.
  intros Hfresh. unfold createMatch.
  destruct rootUserId as [userId|]; [|discriminate].
  destruct (decide (userId = "")); [discriminate|].
  destruct (WalletStore.wallets (wallet w) !! userId) as [uw|]; [|discriminate].
  destruct (decide _); [discriminate|].
  intros [= _ <-]. simpl.
  destruct (placeBet_not_active (activeMatches (game w)) userId matchId
              (stakeAmount matchData) tx now (wallet w) Hfresh) as (? & ? & _).
  done.
Qed.

(** C5.  A user whose balance covers the stake but whose available balance
    does not is let through by both [createMatch] and [joinMatch].  With a
    balance of 100 of which 40 are locked, the second player creates a match
    with stake 80, and joins another one with stake 80: both calls resolve,
    the bet behind each is refused, and the matches stand without a stake
    of that player. *)
Theorem createMatch_joinMatch_ignore_lockedBalance :
  WalletStore.getWalletBalance "B" (wallet Scenario.joined) = num 100
  ∧ WalletStore.getLockedBalance "B" (wallet Scenario.joined) = num 40
  ∧ (WalletStore.getWalletBalance "B" (wallet Scenario.joined)
     - WalletStore.getLockedBalance "B" (wallet Scenario.joined) < num 80)%Qc
  ∧ (∃ w', Scenario.overCommitted = Resolved ("m2", w')
           ∧ (stakeAmount <$> pendingMatches (game w') !! "m2") = Some (num 80)
           ∧ WalletStore.escrowHoldings (wallet w') !! "m2" = None
           ∧ WalletStore.getLockedBalance "B" (wallet w') = num 40
           ∧ WalletStore.error (wallet w') = Some (Message "Insufficient funds"))
  ∧ (WalletStore.getWalletBalance "B" (wallet Scenario.opened)
     - WalletStore.getLockedBalance "B" (wallet Scenario.opened) < num 80)%Qc
  ∧ (∃ w', Scenario.overJoined = Resolved (tt, w')
           ∧ (status <$> activeMatches (game w') !! "m3") = Some "active"
           ∧ (player2Id <$> activeMatches (game w') !! "m3") = Some "B"
           ∧ WalletStore.escrowHoldings (wallet w') !! "m3" = None
           ∧ WalletStore.getLockedBalance "B" (wallet w') = num 40
           ∧ WalletStore.error (wallet w') = Some (Message "Insufficient funds")).
Proof.
  split; [qc_eval|]. split; [qc_eval|].
  split; [vm_compute; reflexivity|].
  split.
  { exists (Scenario.after Scenario.overCommitted Scenario.joined).
    split; [vm_compute; reflexivity|].
    split; [vm_compute; reflexivity|].
    split; [vm_compute; reflexivity|].
    split; [qc_eval|vm_compute; reflexivity]. }
  split; [vm_compute; reflexivity|].
  exists (Scenario.after Scenario.overJoined Scenario.opened).
  split; [vm_compute; reflexivity|].
  split; [vm_compute; reflexivity|].
  split; [vm_compute; reflexivity|].
  split; [vm_compute; reflexivity|].
  split; [qc_eval|vm_compute; reflexivity].
Qed.

(** C9 (as amended).  [forfeitMatch] rejects with "Match not found" exactly
    when no active match has the id (a pending match is not found).  For an
    active match it is [endMatch] with the other player as winner (the
    second player when the first forfeits, the first player otherwise): the
    match resolves into the history as completed, with that winner and the
    time of the call as its end, and leaves the active matches. *)
Theorem forfeitMatch_active w matchId forfeitingPlayerId tx now :
  (activeMatches (game w) !! matchId = None
   ↔ forfeitMatch matchId forfeitingPlayerId tx now w = Rejected "Match not found")
  ∧ ∀ m, activeMatches (game w) !! matchId = Some m →
      let winnerId :=
        if decide (player1Id m = forfeitingPlayerId) then player2Id m
        else player1Id m in
      (forfeitingPlayerId = player1Id m ∨ forfeitingPlayerId = player2Id m →
       player1Id m ≠ player2Id m →
       winnerId ≠ forfeitingPlayerId
       ∧ (winnerId = player1Id m ∨ winnerId = player2Id m))
      ∧ forfeitMatch matchId forfeitingPlayerId tx now w
        = endMatch matchId winnerId tx now w
      ∧ ∃ w', forfeitMatch matchId forfeitingPlayerId tx now w = Resolved (tt, w')
          ∧ matchHistory (game w') !! matchId
            = Some {| match_id := match_id m; status := "completed";
                      winner := winnerId; endedAt := now;
                      createdAt := createdAt m; player1Id := player1Id m;
                      player2Id := player2Id m; startedAt := startedAt m;
                      stakeAmount := stakeAmount m;
                      player1Score := player1Score m;
                      player2Score := player2Score m |}
          ∧ activeMatches (game w') !! matchId = None
          ∧ pendingMatches (game w') = pendingMatches (game w).
Proof.
  split.
  - unfold forfeitMatch, endMatch.
    destruct (activeMatches (game w) !! matchId) as [m|] eqn:Hm; split; done.
  - intros m Hm winnerId. split; [|split].
    + subst winnerId. intros [->| ->] Hne; case_decide; auto; congruence.
    + unfold forfeitMatch. by rewrite Hm.
    + unfold forfeitMatch, endMatch. rewrite Hm. eexists. split; [reflexivity|].
      simpl. split; [apply lookup_insert_eq|].
      split; [apply lookup_delete_eq|reflexivity].
Qed.

(** The instance of [forfeitMatch_active] at the active match of
    [Scenario.joined], forfeited by its second player. *)
Lemma forfeitMatch_active_witness :
  ∃ w', forfeitMatch "m" "B" "t9" 9 Scenario.joined = Resolved (tt, w')
        ∧ (winner <$> matchHistory (game w') !! "m") = Some "A"
        ∧ (status <$> matchHistory (game w') !! "m") = Some "completed".
Proof.
  destruct (activeMatches (game Scenario.joined) !! "m") as [m|] eqn:Hm;
    [|vm_compute in Hm; discriminate Hm].
  destruct (forfeitMatch_active Scenario.joined "m" "B" "t9" 9) as [_ Hactive].
  destruct (Hactive m Hm) as (_ & _ & w' & Hres & Hhist & _).
  exists w'. split; [exact Hres|].
  rewrite Hhist. simpl.
  vm_compute in Hm. injection Hm as <-. split; reflexivity.
Defined.

(** C9, as stated, fails for pending matches: the match [createMatch] has
    stored exists, and forfeiting it is rejected with "Match not found". *)
Lemma forfeitMatch_pending_not_found :
  ¬ (∀ w matchId forfeitingPlayerId tx now,
       is_Some (pendingMatches (game w) !! matchId)
       ∨ is_Some (activeMatches (game w) !! matchId) →
       forfeitMatch matchId forfeitingPlayerId tx now w ≠ Rejected "Match not found").
Proof.
  intros claim.
  apply (claim Scenario.created "m" "A" "t9" 9).
  - left. vm_compute. eauto.
  - vm_compute. reflexivity.
Qed.

(** C10.  [leaveMatch] deletes the match from the active matches, with its
    game state and its readiness record, and nothing else in the game
    store; the wallet store is the same afterwards, so every escrow holding,
    every locked balance and the transaction history are as before. *)
Theorem leaveMatch_leaves_wallets matchId playerId w :
  activeMatches (game (leaveMatch matchId playerId w)) !! matchId = None
  ∧ gameStates (game (leaveMatch matchId playerId w)) !! matchId = None
  ∧ playerReadyStatus (game (leaveMatch matchId playerId w)) !! matchId = None
  ∧ (∀ other, other ≠ matchId →
       activeMatches (game (leaveMatch matchId playerId w)) !! other
       = activeMatches (game w) !! other
       ∧ gameStates (game (leaveMatch matchId playerId w)) !! other
         = gameStates (game w) !! other
       ∧ playerReadyStatus (game (leaveMatch matchId playerId w)) !! other
         = playerReadyStatus (game w) !! other)
  ∧ wallet (leaveMatch matchId playerId w) = wallet w
  ∧ WalletStore.escrowHoldings (wallet (leaveMatch matchId playerId w)) !! matchId
    = WalletStore.escrowHoldings (wallet w) !! matchId
  ∧ (∀ u, WalletStore.getLockedBalance u (wallet (leaveMatch matchId playerId w))
          = WalletStore.getLockedBalance u (wallet w)
          ∧ WalletStore.getWalletBalance u (wallet (leaveMatch matchId playerId w))
            = WalletStore.getWalletBalance u (wallet w))
  ∧ WalletStore.transactionHistory (wallet (leaveMatch matchId playerId w))
    = WalletStore.transactionHistory (wallet w).
Proof.
  unfold leaveMatch; simpl.
  split; [apply lookup_delete_eq|].
  split; [apply lookup_delete_eq|].
  split; [apply lookup_delete_eq|].
  split; [|done].
  intros other Hother. by rewrite !lookup_delete_ne.
Qed.

(** In the run, the second player leaves the active match: their 40 stay
    locked and the escrow holding stays. *)
Example leaveMatch_keeps_stake_locked :
  activeMatches (game (leaveMatch "m" "B" Scenario.joined)) !! "m" = None
  ∧ WalletStore.getLockedBalance "B" (wallet (leaveMatch "m" "B" Scenario.joined))
    = num 40
  ∧ (WalletStore.amount
       <$> WalletStore.escrowHoldings (wallet (leaveMatch "m" "B" Scenario.joined)) !! "m")
    = Some (num 40).
Proof.
  split; [vm_compute; reflexivity|]. split; [qc_eval|].
  destruct (WalletStore.escrowHoldings _ !! "m") as [e|] eqn:He;
    vm_compute in He; [|discriminate He].
  injection He as <-. reflexivity.
Qed.

End Coordinator.

(** ** Objects and sorting *)

Section ObjectFacts.
Context {V : Type}.
Implicit Types (o : JsObject.t V) (k : string) (v : V).

Lemma get_put_eq k v o : JsObject.get k (JsObject.put k v o) = Some v.
Proof.
  induction o as [|[k' v'] o IH]; simpl.
  - by rewrite decide_True.
  - destruct (decide (k' = k)) as [->|Hne]; simpl.
    + by rewrite decide_True.
    + by rewrite decide_False.
Qed.

Lemma get_put_ne k k' v o :
  k ≠ k' → JsObject.get k' (JsObject.put k v o) = JsObject.get k' o.
Proof.
  intros Hne. induction o as [|[k0 v0] o IH]; simpl.
  - by rewrite decide_False.
  - destruct (decide (k0 = k)) as [->|Hk0]; simpl.
    + by rewrite !decide_False.
    + destruct (decide (k0 = k')); [done|apply IH].
Qed.

(** Overwriting a property keeps the order of the keys. *)
Lemma keys_put_present k v o :
  is_Some (JsObject.get k o) → fst <$> JsObject.put k v o = fst <$> o.
Proof.
  induction o as [|[k' v'] o IH]; intros Hk.
  - by destruct Hk.
  - cbn [JsObject.put JsObject.get] in *.
    destruct (decide (k' = k)) as [->|Hne]; [done|].
    by rewrite !fmap_cons, IH.
Qed.

End ObjectFacts.

Section SortFacts.
Context {A : Type} (le : A → A → bool).
Hypothesis le_total : ∀ a b, le a b = false → le b a = true.
Hypothesis le_trans : ∀ a b c, le a b = true → le b c = true → le a c = true.

Lemma insert_sorted_Permutation x l : JsObject.insert_sorted le x l ≡ₚ x :: l.
Proof.
  induction l as [|y l IH]; simpl; [done|].
  destruct (le x y); [done|]. rewrite IH. apply Permutation_swap.
Qed.

Lemma stable_sort_Permutation l : JsObject.stable_sort le l ≡ₚ l.
Proof.
  induction l as [|x l IH]; simpl; [done|].
  by rewrite insert_sorted_Permutation, IH.
Qed.

Lemma insert_sorted_StronglySorted x l :
  StronglySorted (λ a b, le a b = true) l →
  StronglySorted (λ a b, le a b = true) (JsObject.insert_sorted le x l).
Proof.
  induction 1 as [|y l Hl IH Hy]; simpl.
  - repeat constructor.
  - destruct (le x y) eqn:Hxy.
    + constructor; [by constructor|].
      constructor; [done|].
      eapply Forall_impl; [|exact Hy]. intros z Hz. by eapply le_trans.
    + constructor; [done|].
      rewrite insert_sorted_Permutation. constructor; [by apply le_total|done].
Qed.

Lemma stable_sort_StronglySorted l :
  StronglySorted (λ a b, le a b = true) (JsObject.stable_sort le l).
Proof.
  induction l as [|x l IH]; simpl; [constructor|].
  by apply insert_sorted_StronglySorted.
Qed.

(** Stability: a class of elements that the order does not separate keeps
    the order it had. *)
Lemma filter_insert_sorted (P : A → Prop) `{!∀ a, Decision (P a)} x l :
  (∀ y, P x → P y → le x y = true) →
  filter P (JsObject.insert_sorted le x l) = filter P (x :: l).
Proof.
  intros Htie. induction l as [|y l IH]; simpl; [done|].
  destruct (le x y) eqn:Hxy; [done|].
  rewrite (filter_cons P y), IH, !(filter_cons P x), (filter_cons P y).
  destruct (decide (P x)) as [Hx|Hx], (decide (P y)) as [Hy|Hy]; try done.
  specialize (Htie y Hx Hy). congruence.
Qed.

Lemma filter_stable_sort (P : A → Prop) `{!∀ a, Decision (P a)} l :
  (∀ x y, P x → P y → le x y = true) →
  filter P (JsObject.stable_sort le l) = filter P l.
Proof.
  intros Htie. induction l as [|x l IH]; simpl; [done|].
  rewrite filter_insert_sorted by auto.
  by rewrite !(filter_cons P x), IH.
Qed.

End SortFacts.

(** ** The user store *)

Section Stats.
Import UserStore.

Implicit Types (s : UserStoreState) (e : LeaderboardEntry).

Lemma Qc_sub_nonpos (a b : Qc) : (b - a ≤ 0)%Qc ↔ (b ≤ a)%Qc.
Proof.
  rewrite (Qcplus_le_mono_r (b - a) 0 a).
  replace (b - a + a)%Qc with b by ring.
  by rewrite Qcplus_0_l.
Qed.

Lemma compareWinRate_le a b :
  bool_decide (compareWinRate a b ≤ 0)%Qc = true
  ↔ (entry_winRate b ≤ entry_winRate a)%Qc.
Proof. rewrite bool_decide_eq_true. apply Qc_sub_nonpos. Qed.

Lemma compareWinRate_total a b :
  bool_decide (compareWinRate a b ≤ 0)%Qc = false →
  bool_decide (compareWinRate b a ≤ 0)%Qc = true.
Proof.
  rewrite bool_decide_eq_false, compareWinRate_le. unfold compareWinRate.
  rewrite Qc_sub_nonpos. intros Hlt. by apply Qclt_le_weak, Qcnot_le_lt.
Qed.

Lemma compareWinRate_trans a b c :
  bool_decide (compareWinRate a b ≤ 0)%Qc = true →
  bool_decide (compareWinRate b c ≤ 0)%Qc = true →
  bool_decide (compareWinRate a c ≤ 0)%Qc = true.
Proof. rewrite !compareWinRate_le. intros ? ?. by eapply Qcle_trans. Qed.

Lemma StronglySorted_weaken {A} (R R' : A → A → Prop) l :
  (∀ a b, R a b → R' a b) → StronglySorted R l → StronglySorted R' l.
Proof.
  intros HR. induction 1 as [|x l _ IH Hx]; constructor; [done|].
  eapply Forall_impl; [|exact Hx]. auto.
Qed.

(** C6, as stated, fails: the win rate [updateStats] stores is a
    percentage.  The first player of the run has won their only match: the
    stored rate is 100, and wins over matches is 1. *)
Lemma updateStats_winRate_is_percentage :
  ¬ (∀ s id won stake now user,
       JsObject.get id (users s) = Some user →
       ∃ user' stats',
         JsObject.get id (users (updateStats id won stake now s)) = Some user'
         ∧ userStats (updateStats id won stake now s) !! id = Some stats'
         ∧ winRate stats' = (wins user' / totalMatches user')%Qc).
Proof.
  intros claim.
  destruct (JsObject.get "A" (users (GameStore.user Scenario.joined)))
    as [user|] eqn:Hu; [|vm_compute in Hu; discriminate Hu].
  destruct (claim (GameStore.user Scenario.joined) "A" true (num 40) 7 user Hu)
    as (user' & stats' & Hu' & Hs' & Hrate).
  vm_compute in Hu'. injection Hu' as <-.
  vm_compute in Hs'. injection Hs' as <-.
  vm_compute in Hrate. discriminate Hrate.
Qed.

(** C6 (as amended).  For a known user, [updateStats] adds one to the wins
    if the match was won and one to the losses otherwise, adds one to the
    number of matches [n], and stores as statistics the win rate
    [wins / n * 100] and the mean stake [(avgStake_old * (n - 1) + stake) / n],
    where [avgStake_old] is 0 for a user without statistics; the stored rank
    and the other fields of the user stay. *)
Theorem updateStats_known s id won stake now user :
  JsObject.get id (users s) = Some user →
  (totalMatches user + num 1)%Qc ≠ num 0 →
  ∃ user' stats',
    JsObject.get id (users (updateStats id won stake now s)) = Some user'
    ∧ userStats (updateStats id won stake now s) !! id = Some stats'
    ∧ wins user' = (wins user + (if won then num 1 else num 0))%Qc
    ∧ losses user' = (losses user + (if won then num 0 else num 1))%Qc
    ∧ totalMatches user' = (totalMatches user + num 1)%Qc
    ∧ winRate stats' = (wins user' / totalMatches user' * num 100)%Qc
    ∧ avgStake stats'
      = ((default (num 0) (avgStake <$> userStats s !! id)
          * (totalMatches user' - num 1) + stake) / totalMatches user')%Qc
    ∧ rank stats' = default (num 0) (rank <$> userStats s !! id)
    ∧ (user_id user', email user', username user', reputation user')
      = (user_id user, email user, username user, reputation user)
    ∧ fst <$> users (updateStats id won stake now s) = fst <$> users s.
Proof.
  intros Hu _. unfold updateStats. rewrite Hu. simpl.
  eexists _, _. split; [apply get_put_eq|].
  split; [apply lookup_insert_eq|]. simpl.
  do 4 (split; [reflexivity|]).
  split; [by destruct (userStats s !! id)|].
  split; [by destruct (userStats s !! id)|].
  split; [reflexivity|].
  apply keys_put_present. eauto.
Qed.

(** The instance of [updateStats_known] at the first player of the run,
    who wins a first match with stake 40. *)
Lemma updateStats_known_witness :
  ∃ user' stats',
    JsObject.get "A" (users (updateStats "A" true (num 40) 7
                               (GameStore.user Scenario.joined))) = Some user'
    ∧ userStats (updateStats "A" true (num 40) 7 (GameStore.user Scenario.joined))
        !! "A" = Some stats'
    ∧ totalMatches user' = num 1
    ∧ winRate stats' = num 100
    ∧ avgStake stats' = num 40.
Proof.
  destruct (JsObject.get "A" (users (GameStore.user Scenario.joined)))
    as [user|] eqn:Hu; [|vm_compute in Hu; discriminate Hu].
  destruct (updateStats_known (GameStore.user Scenario.joined) "A" true (num 40) 7
              user Hu)
    as (user' & stats' & Hu' & Hs' & Hw & _ & Hn & Hrate & Havg & _).
  - vm_compute in Hu. injection Hu as <-. vm_compute. discriminate.
  - exists user', stats'. split; [exact Hu'|]. split; [exact Hs'|].
    vm_compute in Hu. injection Hu as <-.
    split; [rewrite Hn; qc_eval|].
    split; [rewrite Hrate, Hw, Hn; qc_eval|].
    rewrite Havg, Hn. qc_eval.
Defined.

End Stats.

Section Leaderboard.
Import UserStore.

Implicit Types (s : UserStoreState) (e : LeaderboardEntry).

Lemma fetchLeaderboard_miss now s :
  cacheHit now s = None →
  fetchLeaderboard now s
  = (computeLeaderboard s,
     {| error := error s; users := users s; isLoading := isLoading s;
        userStats := userStats s; currentUser := currentUser s;
        lastUpdated := lastUpdated s; userPreferences := userPreferences s;
        matchHistory := matchHistory s;
        cachedLeaderboard := Some (computeLeaderboard s);
        cachedLeaderboardExpiry := Some (now + LEADERBOARD_CACHE_DURATION) |}).
Proof. intros Hmiss. unfold fetchLeaderboard. by rewrite Hmiss. Qed.

Lemma fetchLeaderboard_hit now s cached :
  cacheHit now s = Some cached → fetchLeaderboard now s = (cached, s).
Proof. intros Hhit. unfold fetchLeaderboard. by rewrite Hhit. Qed.

Lemma cacheHit_Some now s cached :
  cacheHit now s = Some cached
  ↔ cachedLeaderboard s = Some cached
    ∧ ∃ expiry, cachedLeaderboardExpiry s = Some expiry ∧ now < expiry.
Proof.
  unfold cacheHit.
  destruct (cachedLeaderboard s) as [c|], (cachedLeaderboardExpiry s) as [x|];
    try (split; [done|]; intros [? (? & ? & ?)]; done).
  destruct (decide (now < x)); split.
  - intros [= ->]. eauto.
  - by intros [[= ->] _].
  - done.
  - intros [_ (? & [= <-] & ?)]. done.
Qed.

(** The entries of the users, before they are sorted: their ids are the
    keys, in the order of insertion, and the entries of a given win rate are
    those of the users whose stored win rate it is. *)
Lemma entryOf_userId s (l : list (string * User)) :
  userId <$> (entryOf s <$> l) = fst <$> l.
Proof. induction l as [|kv l IH]; [done|]. rewrite !fmap_cons. by f_equal. Qed.

Lemma entryOf_filter s v (l : list (string * User)) :
  userId <$> filter (λ e, entry_winRate e = v) (entryOf s <$> l)
  = fst <$> filter (λ kv, default (num 0) (winRate <$> userStats s !! fst kv) = v) l.
Proof.
  induction l as [|kv l IH]; [done|].
  rewrite fmap_cons, !filter_cons. simpl.
  destruct (decide (default (num 0) (winRate <$> userStats s !! kv.1) = v));
    rewrite ?fmap_cons, IH; done.
Qed.

(** C7.  When no cached snapshot can be served, the leaderboard
    [fetchLeaderboard] returns is a list [sorted] with the rank of each
    entry set to its position plus one, where [sorted] holds one entry per
    user, each with the win rate stored for that user (0 without
    statistics), is in descending order of win rate, and lists the users of
    any one win rate in the order of their insertion; the snapshot is cached
    until five minutes after the call. *)
Theorem fetchLeaderboard_recomputes s now :
  cacheHit now s = None →
  ∃ sorted,
    userId <$> sorted ≡ₚ fst <$> users s
    ∧ (∀ e, e ∈ sorted →
            entry_winRate e = default (num 0) (winRate <$> userStats s !! userId e))
    ∧ StronglySorted (λ a b, (entry_winRate b ≤ entry_winRate a)%Qc) sorted
    ∧ (∀ v, userId <$> filter (λ e, entry_winRate e = v) sorted
            = fst <$> filter (λ kv, default (num 0)
                                      (winRate <$> userStats s !! fst kv) = v)
                        (users s))
    ∧ length (fst (fetchLeaderboard now s)) = length sorted
    ∧ (∀ i e, fst (fetchLeaderboard now s) !! i = Some e
              ↔ ∃ e0, sorted !! i = Some e0
                      ∧ e = {| userId := userId e0;
                               entry_rank := num (Z.of_nat i + 1);
                               entry_winRate := entry_winRate e0 |})
    ∧ cachedLeaderboard (snd (fetchLeaderboard now s))
      = Some (fst (fetchLeaderboard now s))
    ∧ cachedLeaderboardExpiry (snd (fetchLeaderboard now s))
      = Some (now + 5 * 60 * 1000).
Proof.
  intros Hmiss.
  rewrite (fetchLeaderboard_miss _ _ Hmiss). simpl.
  unfold computeLeaderboard, JsObject.entries.
  exists (Array_sort compareWinRate (entryOf s <$> users s)).
  unfold Array_sort.
  split.
  { rewrite stable_sort_Permutation. by rewrite entryOf_userId. }
  split.
  { intros e He. rewrite stable_sort_Permutation in He.
    apply list_elem_of_fmap in He as (kv & -> & _). reflexivity. }
  split.
  { eapply StronglySorted_weaken;
      [|apply stable_sort_StronglySorted;
        [apply compareWinRate_total|apply compareWinRate_trans]].
    intros a b. apply compareWinRate_le. }
  split.
  { intros v. rewrite <- entryOf_filter. f_equal. apply filter_stable_sort.
    intros a b Ha Hb. apply compareWinRate_le. rewrite Ha, Hb.
    apply Qcle_refl. }
  split; [apply length_imap|].
  split; [|done].
  intros i e. rewrite list_lookup_imap.
  destruct (_ !! i) as [e0|]; simpl; split.
  - intros [= <-]. eauto.
  - intros (e1 & [= <-] & ->). reflexivity.
  - done.
  - intros (? & ? & _). done.
Qed.

(** The instance of [fetchLeaderboard_recomputes] at the three users of
    [Scenario.lastFirst], inserted in the order A, B, C with the win rates
    0.5, 0.8 and 0.8: B and C tie and stay in that order, before A, with the
    ranks 1, 2 and 3.  For the users of [Scenario.threeUsers], where A and B
    tie at 0.8 before C at 0.5, the ranks are A 1, B 2 and C 3. *)
Lemma fetchLeaderboard_recomputes_witness :
  (λ e, (userId e, entry_rank e)) <$> fst (fetchLeaderboard 10 Scenario.threeUsers)
  = [("A", num 1); ("B", num 2); ("C", num 3)]
  ∧ (λ e, (userId e, entry_rank e, entry_winRate e))
      <$> fst (fetchLeaderboard 10 Scenario.lastFirst)
    = [("B", num 1, Q2Qc (8 # 10)); ("C", num 2, Q2Qc (8 # 10));
       ("A", num 3, Q2Qc (5 # 10))]
  ∧ ∃ sorted,
      length (fst (fetchLeaderboard 10 Scenario.lastFirst)) = length sorted
      ∧ userId <$> filter (λ e, entry_winRate e = Q2Qc (8 # 10)) sorted
        = fst <$> filter (λ kv, default (num 0)
                                  (winRate <$> userStats Scenario.lastFirst
                                                 !! fst kv) = Q2Qc (8 # 10))
                    (users Scenario.lastFirst).
Proof.
  split; [vm_compute; reflexivity|].
  split; [vm_compute; reflexivity|].
  destruct (fetchLeaderboard_recomputes Scenario.lastFirst 10)
    as (sorted & _ & _ & _ & Hstable & Hlength & _).
  - vm_compute. reflexivity.
  - exists sorted. split; [exact Hlength|apply Hstable].
Defined.

(** What an action other than [clearCache] does to a cache that can still
    be served when the second call is made. *)
Lemma run_keeps_cache t a s cached expiry :
  intervening t a → t < expiry →
  cachedLeaderboard s = Some cached →
  cachedLeaderboardExpiry s = Some expiry →
  cachedLeaderboard (run a s) = Some cached
  ∧ cachedLeaderboardExpiry (run a s) = Some expiry.
Proof.
  intros Ha Ht Hc Hx. destruct a; simpl in *; try done.
  - unfold updateStats. by destruct (JsObject.get id (users s)).
  - unfold updateProfile. by destruct (JsObject.get id (users s)).
  - rewrite (fetchLeaderboard_hit now s cached); [done|].
    apply cacheHit_Some. split; [done|]. exists expiry. split; [done|lia].
  - unfold updateUserPreferences. by destruct (userPreferences s !! id).
Qed.

Lemma runAll_keeps_cache t l s cached expiry :
  Forall (intervening t) l → t < expiry →
  cachedLeaderboard s = Some cached →
  cachedLeaderboardExpiry s = Some expiry →
  cachedLeaderboard (runAll l s) = Some cached
  ∧ cachedLeaderboardExpiry (runAll l s) = Some expiry.
Proof.
  intros Hl Ht. revert s.
  induction Hl as [|a l Ha _ IH]; intros s Hc Hx; [done|].
  destruct (run_keeps_cache t a s cached expiry Ha Ht Hc Hx) as [Hc' Hx'].
  exact (IH (run a s) Hc' Hx').
Qed.

(** After a call, the snapshot it returned is the cached one. *)
Lemma fetchLeaderboard_caches now s :
  cachedLeaderboard (snd (fetchLeaderboard now s)) = Some (fst (fetchLeaderboard now s))
  ∧ ∃ expiry,
      cachedLeaderboardExpiry (snd (fetchLeaderboard now s)) = Some expiry
      ∧ now < expiry
      ∧ (cacheHit now s = None → expiry = now + LEADERBOARD_CACHE_DURATION).
Proof.
  destruct (cacheHit now s) as [cached|] eqn:Hhit.
  - rewrite (fetchLeaderboard_hit _ _ _ Hhit). simpl.
    apply cacheHit_Some in Hhit as (Hc & expiry & Hx & Hlt).
    split; [done|]. exists expiry. done.
  - rewrite (fetchLeaderboard_miss _ _ Hhit). simpl.
    split; [done|]. eexists. split; [done|]. split; [|done].
    unfold LEADERBOARD_CACHE_DURATION. lia.
Qed.

(** C8.  Let the cache behind a first call made at [t1] have been populated
    at [t0] (which is [t1] when that call recomputed the leaderboard).  A
    second call made at [t2], less than five minutes after [t0], with
    neither a [clearCache] nor a later call of [fetchLeaderboard] in
    between, returns the cached snapshot, which is the list the first call
    returned, and leaves the store as it is. *)
Theorem fetchLeaderboard_within_ttl s t1 t0 between t2 :
  cachedLeaderboardExpiry (snd (fetchLeaderboard t1 s))
  = Some (t0 + LEADERBOARD_CACHE_DURATION) →
  t2 < t0 + 5 * 60 * 1000 →
  Forall (intervening t2) between →
  (cacheHit t1 s = None → t0 = t1)
  ∧ cachedLeaderboard (runAll between (snd (fetchLeaderboard t1 s)))
    = Some (fst (fetchLeaderboard t1 s))
  ∧ fetchLeaderboard t2 (runAll between (snd (fetchLeaderboard t1 s)))
    = (fst (fetchLeaderboard t1 s),
       runAll between (snd (fetchLeaderboard t1 s))).
Proof.
  intros Hx Ht2 Hbetween.
  destruct (fetchLeaderboard_caches t1 s) as (Hc & expiry & Hx' & _ & Hpop).
  rewrite Hx in Hx'. injection Hx' as <-.
  split; [intros Hmiss; specialize (Hpop Hmiss); lia|].
  destruct (runAll_keeps_cache t2 between (snd (fetchLeaderboard t1 s))
              (fst (fetchLeaderboard t1 s)) (t0 + LEADERBOARD_CACHE_DURATION))
    as [Hc2 Hx2]; try done.
  split; [exact Hc2|].
  apply fetchLeaderboard_hit, cacheHit_Some. split; [exact Hc2|].
  eexists. split; [exact Hx2|]. exact Ht2.
Qed.

(** The instance of [fetchLeaderboard_within_ttl] at the three users of
    [Scenario.threeUsers]: the leaderboard is computed at 10; then C's
    statistics change and the leaderboard is read again at 200000; the call
    made at 300009 still returns the list of the first call. *)
Lemma fetchLeaderboard_within_ttl_witness :
  fst (fetchLeaderboard 300009
         (runAll [UpdateStats "C" true (num 40) 20; FetchLeaderboard 200000]
            (snd (fetchLeaderboard 10 Scenario.threeUsers))))
  = fst (fetchLeaderboard 10 Scenario.threeUsers).
Proof.
  destruct (fetchLeaderboard_within_ttl Scenario.threeUsers 10 10
              [UpdateStats "C" true (num 40) 20; FetchLeaderboard 200000] 300009)
    as (_ & _ & Hsame).
  - vm_compute. reflexivity.
  - lia.
  - repeat constructor. simpl. lia.
  - rewrite Hsame. reflexivity.
Defined.

End Leaderboard.

(** * Further properties of the stores *)

(** Closed comparisons of rationals, by evaluation. *)
Ltac qc_closed :=
  vm_compute;
  first [ reflexivity | discriminate | intros H; discriminate H
        | intros H; apply H; reflexivity ].

(** ** Ledger operations *)

Section LedgerOperations.
Import WalletStore.

Implicit Types (s : WalletStoreState) (op : LedgerOp).

(** An operation of the ledger that ends with an error has changed no
    wallet, no escrow holding and no transaction. *)
Theorem ledger_failure_changes_nothing activeMatches op s :
  is_Some (error (runLedgerOp activeMatches op s)) →
  wallets (runLedgerOp activeMatches op s) = wallets s
  ∧ escrowHoldings (runLedgerOp activeMatches op s) = escrowHoldings s
  ∧ transactionHistory (runLedgerOp activeMatches op s) = transactionHistory s
  ∧ pendingTransactions (runLedgerOp activeMatches op s) = pendingTransactions s.
Proof.
  destruct op; simpl.
  - unfold deposit. destruct (decide _); [done|].
    simpl. by intros [? [=]].
  - unfold withdraw. destruct (wallets s !! userId); [|done].
    destruct (decide _); [done|].
    destruct (_ ≫= _); simpl; [by intros [? [=]]|done].
  - unfold placeBet. destruct (wallets s !! userId); [|done].
    destruct (decide _); [done|].
    destruct (activeMatches !! matchId); [|done].
    destruct (update_wallet _ _ _); simpl; [by intros [? [=]]|done].
  - unfold processPayout. destruct (escrowHoldings s !! matchId); [|done].
    destruct (payout_wallets _ _ _ _); simpl; [by intros [? [=]]|done].
Qed.

Lemma ledger_failure_changes_nothing_witness :
  wallets (runLedgerOp ∅ (Withdraw "A" (num 500) "t9" 9)
             (GameStore.wallet Scenario.funded))
  = wallets (GameStore.wallet Scenario.funded).
Proof.
  refine (proj1 (ledger_failure_changes_nothing ∅ (Withdraw "A" (num 500) "t9" 9)
                   (GameStore.wallet Scenario.funded) _)).
  vm_compute. eauto.
Defined.

(** A deposit of a positive amount adds it to the balance of the user,
    whose wallet is created with balance 0 and nothing locked if there was
    none; it leaves the locked balance, the other wallets and the escrow
    holdings alone, and files the transaction twice: as completed in the
    history, and as pending in the pending transactions. *)
Theorem deposit_credits userId amt tx wid now s :
  ¬ (amt ≤ 0)%Qc →
  getWalletBalance userId (deposit userId amt tx wid now s)
  = (getWalletBalance userId s + amt)%Qc
  ∧ getLockedBalance userId (deposit userId amt tx wid now s)
    = getLockedBalance userId s
  ∧ (∀ u, u ≠ userId →
       wallets (deposit userId amt tx wid now s) !! u = wallets s !! u)
  ∧ (tx_status <$> transactionHistory (deposit userId amt tx wid now s) !! tx)
    = Some completed_s
  ∧ (tx_status <$> pendingTransactions (deposit userId amt tx wid now s) !! tx)
    = Some pending_s
  ∧ (tx_amount <$> transactionHistory (deposit userId amt tx wid now s) !! tx)
    = Some amt
  ∧ escrowHoldings (deposit userId amt tx wid now s) = escrowHoldings s
  ∧ error (deposit userId amt tx wid now s) = None.
Proof.
  intros Hpos. unfold deposit. destruct (decide _) as [|_]; [done|].
  unfold getWalletBalance, getLockedBalance. simpl.
  rewrite !lookup_insert_eq. simpl.
  split; [by destruct (wallets s !! userId)|].
  split; [by destruct (wallets s !! userId)|].
  split; [intros u Hu; by rewrite lookup_insert_ne|done].
Qed.

Lemma deposit_credits_witness :
  getWalletBalance "C" (deposit "C" (num 25) "t9" "wC" 9
                          (GameStore.wallet Scenario.funded))
  = (getWalletBalance "C" (GameStore.wallet Scenario.funded) + num 25)%Qc.
Proof.
  refine (proj1 (deposit_credits "C" (num 25) "t9" "wC" 9
                   (GameStore.wallet Scenario.funded) _)).
  qc_closed.
Defined.

(** A withdrawal that passes the test of the available funds takes the
    amount off the balance and leaves the locked balance as it is stored;
    the other wallets and the escrow holdings stay, and a completed
    withdrawal is recorded. *)
Theorem withdraw_debits userId amt tx now s w :
  wallets s !! userId = Some w →
  ¬ (balance w - lockedBalance w < amt)%Qc →
  wallets (withdraw userId amt tx now s) !! userId
  = Some {| wallet_id := wallet_id w; wallet_userId := wallet_userId w;
            balance := (balance w - amt)%Qc; lastUpdated := now;
            lockedBalance := lockedBalance w |}
  ∧ (∀ u, u ≠ userId →
       wallets (withdraw userId amt tx now s) !! u = wallets s !! u)
  ∧ transactionHistory (withdraw userId amt tx now s) !! tx
    = Some {| tx_id := tx; tx_userId := userId; tx_amount := amt;
              tx_type := withdrawal_t; tx_status := completed_s;
              tx_timestamp := now; tx_matchId := None;
              tx_description := WithdrawalOf amt |}
  ∧ escrowHoldings (withdraw userId amt tx now s) = escrowHoldings s
  ∧ error (withdraw userId amt tx now s) = None.
Proof.
  intros Hw Hfunds. unfold withdraw. rewrite Hw.
  destruct (decide _) as [|_]; [done|].
  simpl. rewrite (update_wallet_Some _ _ _ _ Hw). simpl.
  erewrite update_wallet_Some; last by rewrite lookup_insert_eq.
  simpl. rewrite !lookup_insert_eq.
  split; [done|].
  split; [intros u Hu; by rewrite !lookup_insert_ne|done].
Qed.

Lemma withdraw_debits_witness :
  getWalletBalance "B" (withdraw "B" (num 60) "t9" 9 (GameStore.wallet Scenario.joined))
  = num 40.
Proof.
  destruct (wallets (GameStore.wallet Scenario.joined) !! "B") as [w|] eqn:Hw;
    [|vm_compute in Hw; discriminate Hw].
  destruct (withdraw_debits "B" (num 60) "t9" 9 (GameStore.wallet Scenario.joined) w Hw)
    as [Hafter _].
  - vm_compute in Hw. injection Hw as <-. qc_closed.
  - unfold getWalletBalance. rewrite Hafter. simpl.
    vm_compute in Hw. injection Hw as <-. qc_eval.
Defined.



End LedgerOperations.

Section LedgerComposition.
Import WalletStore.

Implicit Types (s : WalletStoreState) (op : LedgerOp).

(** A bet on an active match by a player whose available funds cover it
    locks the amount and changes no balance; the escrow holding of the match
    is replaced by one that records this amount and the two players of the
    match, whatever was recorded before. *)
Theorem placeBet_locks_stake activeMatches userId matchId amt tx now s w m :
  wallets s !! userId = Some w →
  ¬ (balance w - lockedBalance w < amt)%Qc →
  activeMatches !! matchId = Some m →
  getLockedBalance userId (placeBet activeMatches userId matchId amt tx now s)
  = (lockedBalance w + amt)%Qc
  ∧ (∀ u, getWalletBalance u (placeBet activeMatches userId matchId amt tx now s)
          = getWalletBalance u s)
  ∧ (∀ u, u ≠ userId →
       getLockedBalance u (placeBet activeMatches userId matchId amt tx now s)
       = getLockedBalance u s)
  ∧ escrowHoldings (placeBet activeMatches userId matchId amt tx now s) !! matchId
    = Some {| escrow_matchId := matchId; amount := amt;
              escrow_player1Id := player1Id m; escrow_player2Id := player2Id m;
              escrow_timestamp := now |}
  ∧ (tx_type <$> transactionHistory
                   (placeBet activeMatches userId matchId amt tx now s) !! tx)
    = Some bet_t
  ∧ error (placeBet activeMatches userId matchId amt tx now s) = None.
Proof.
  intros Hw Hfunds Hm.
  rewrite (placeBet_active _ _ _ _ _ _ _ _ _ Hw Hfunds Hm).
  unfold getLockedBalance, getWalletBalance. simpl.
  rewrite !lookup_insert_eq. simpl.
  split; [done|]. split.
  { intros u. destruct (decide (u = userId)) as [->|Hu].
    - by rewrite lookup_insert_eq, Hw.
    - by rewrite lookup_insert_ne. }
  split; [intros u Hu; by rewrite lookup_insert_ne|done].
Qed.

Lemma placeBet_locks_stake_witness :
  getLockedBalance "A"
    (placeBet (GameStore.activeMatches (GameStore.game Scenario.joined))
       "A" "m" (num 40) "t9" 9 (GameStore.wallet Scenario.joined))
  = num 40.
Proof.
  destruct (wallets (GameStore.wallet Scenario.joined) !! "A") as [w|] eqn:Hw;
    [|vm_compute in Hw; discriminate Hw].
  destruct (GameStore.activeMatches (GameStore.game Scenario.joined) !! "m")
    as [m|] eqn:Hm; [|vm_compute in Hm; discriminate Hm].
  rewrite (proj1 (placeBet_locks_stake _ "A" "m" (num 40) "t9" 9 _ w m Hw
                    ltac:(vm_compute in Hw; injection Hw as <-; qc_closed) Hm)).
  vm_compute in Hw. injection Hw as <-. qc_eval.
Defined.

(** When a payout finds the escrow holding, it goes through exactly when
    the winner and the loser it works out both have a wallet; otherwise it
    leaves the engine's message in [error], and the wallets and the escrow
    holding as they were. *)
Lemma payout_wallets_is_Some escrow winnerId now ws :
  is_Some (payout_wallets escrow winnerId now ws)
  ↔ is_Some (ws !! winnerId) ∧ is_Some (ws !! loserOf escrow winnerId).
Proof.
  unfold payout_wallets, update_wallet.
  destruct (ws !! winnerId) as [wW|] eqn:HW; simpl.
  - destruct (decide (loserOf escrow winnerId = winnerId)) as [->|Hne].
    + rewrite lookup_insert_eq. simpl. rewrite lookup_insert_eq. simpl.
      rewrite lookup_insert_eq. simpl. rewrite HW. split; eauto.
    + rewrite lookup_insert_ne by done.
      destruct (ws !! loserOf escrow winnerId) as [wL|]; simpl.
      * rewrite lookup_insert_ne by done. rewrite lookup_insert_eq. simpl.
        rewrite lookup_insert_eq. simpl. split; eauto.
      * split; [by intros [? ?]|by intros [_ [? ?]]].
  - split; [by intros [? ?]|by intros [[? ?] _]].
Qed.

Theorem processPayout_needs_both_wallets matchId winnerId tx now s escrow :
  escrowHoldings s !! matchId = Some escrow →
  (error (processPayout matchId winnerId tx now s) = None
   ↔ is_Some (wallets s !! winnerId)
     ∧ is_Some (wallets s !! loserOf escrow winnerId))
  ∧ (error (processPayout matchId winnerId tx now s) ≠ None →
     error (processPayout matchId winnerId tx now s) = Some TypeErrorMessage
     ∧ wallets (processPayout matchId winnerId tx now s) = wallets s
     ∧ escrowHoldings (processPayout matchId winnerId tx now s) !! matchId
       = Some escrow
     ∧ transactionHistory (processPayout matchId winnerId tx now s)
       = transactionHistory s).
Proof.
  intros He. unfold processPayout. rewrite He.
  pose proof (payout_wallets_is_Some escrow winnerId now (wallets (start_loading s)))
    as Hiff.
  destruct (payout_wallets escrow winnerId now (wallets (start_loading s)))
    as [ws|]; simpl in *.
  - split; [|done]. split; [intros _; apply Hiff; eauto|done].
  - split; [|done]. split; [done|].
    intros Hboth. apply Hiff in Hboth. by destruct Hboth.
Qed.

Lemma processPayout_needs_both_wallets_witness :
  error (processPayout "m" "A" "t9" 9 Scenario.oneSided) = Some TypeErrorMessage.
Proof.
  destruct (escrowHoldings Scenario.oneSided !! "m") as [escrow|] eqn:He;
    [|vm_compute in He; discriminate He].
  apply (proj2 (processPayout_needs_both_wallets "m" "A" "t9" 9
                  Scenario.oneSided escrow He)).
  vm_compute. discriminate.
Defined.


End LedgerComposition.

Section LedgerRecords.
Import WalletStore.

Implicit Types (s : WalletStoreState) (op : LedgerOp).


Lemma runLedgerOp_history_other activeMatches op s id :
  transactionIdOf op ≠ id →
  transactionHistory (runLedgerOp activeMatches op s) !! id
  = transactionHistory s !! id.
Proof.
  intros Hid. destruct op; simpl in *.
  - unfold deposit. destruct (decide _); [done|].
    simpl. by rewrite lookup_insert_ne.
  - unfold withdraw. destruct (wallets s !! userId); [|done].
    destruct (decide _); [done|].
    destruct (_ ≫= _); simpl; [by rewrite lookup_insert_ne|done].
  - unfold placeBet. destruct (wallets s !! userId); [|done].
    destruct (decide _); [done|].
    destruct (activeMatches !! matchId); [|done].
    destruct (update_wallet _ _ _); simpl; [by rewrite lookup_insert_ne|done].
  - unfold processPayout. destruct (escrowHoldings s !! matchId); [|done].
    destruct (payout_wallets _ _ _ _); simpl; [by rewrite lookup_insert_ne|done].
Qed.

(** The transaction history is append-only: operations that record under
    other identifiers leave an entry exactly as it is (and leave an
    identifier without an entry). *)
Theorem transaction_history_append_only activeMatches ops s id :
  Forall (λ op, transactionIdOf op ≠ id) ops →
  transactionHistory (runLedger activeMatches ops s) !! id
  = transactionHistory s !! id.
Proof.
  intros Hops. revert s.
  induction Hops as [|op ops Hop _ IH]; intros s; [done|].
  unfold runLedger in *. simpl. rewrite IH.
  by apply runLedgerOp_history_other.
Qed.

Lemma transaction_history_append_only_witness :
  transactionHistory
    (runLedger (GameStore.activeMatches (GameStore.game Scenario.joined))
       Scenario.noPayout (GameStore.wallet Scenario.ended)) !! "t5"
  = transactionHistory (GameStore.wallet Scenario.ended) !! "t5".
Proof.
  apply transaction_history_append_only.
  repeat constructor; discriminate.
Defined.

Lemma non_deposit_keeps_pending activeMatches op s :
  match op with Deposit _ _ _ _ _ => False | _ => True end →
  pendingTransactions (runLedgerOp activeMatches op s) = pendingTransactions s.
Proof.
  destruct op; simpl; [done|..]; intros _.
  - unfold withdraw. destruct (wallets s !! userId); [|done].
    destruct (decide _); [done|]. by destruct (_ ≫= _).
  - unfold placeBet. destruct (wallets s !! userId); [|done].
    destruct (decide _); [done|].
    destruct (activeMatches !! matchId); [|done].
    by destruct (update_wallet _ _ _).
  - unfold processPayout. destruct (escrowHoldings s !! matchId); [|done].
    by destruct (payout_wallets _ _ _ _).
Qed.

(** What the wallet screen shows as pending.  A deposit that goes through
    (under a transaction identifier not used before) raises the pending
    amount by the amount deposited, although the deposit is completed; and
    no withdrawal, bet or payout brings the pending amount down again. *)
Theorem deposits_stay_pending userId amt tx wid now s :
  ¬ (amt ≤ 0)%Qc →
  pendingTransactions s !! tx = None →
  WalletScreen.pendingAmount (deposit userId amt tx wid now s)
  = (WalletScreen.pendingAmount s + amt)%Qc
  ∧ ∀ activeMatches ops,
      Forall (λ op, match op with Deposit _ _ _ _ _ => False | _ => True end) ops →
      WalletScreen.pendingAmount
        (runLedger activeMatches ops (deposit userId amt tx wid now s))
      = (WalletScreen.pendingAmount s + amt)%Qc.
Proof.
  intros Hpos Hfresh.
  assert (Hdep : WalletScreen.pendingAmount (deposit userId amt tx wid now s)
                 = (WalletScreen.pendingAmount s + amt)%Qc).
  { unfold WalletScreen.pendingAmount, deposit.
    destruct (decide _) as [|_]; [done|]. simpl.
    rewrite map_fold_insert_L; [done| |done].
    intros j1 j2 z1 z2 y _ _ _.
    destruct (tx_status z1), (tx_status z2); try done. ring. }
  split; [exact Hdep|].
  intros activeMatches ops Hops. rewrite <- Hdep.
  generalize (deposit userId amt tx wid now s). clear Hdep.
  induction Hops as [|op ops Hop _ IH]; intros s'; [done|].
  unfold runLedger in *. simpl. rewrite IH.
  unfold WalletScreen.pendingAmount.
  by rewrite (non_deposit_keeps_pending _ _ _ Hop).
Qed.

Lemma deposits_stay_pending_witness :
  WalletScreen.pendingAmount
    (deposit "A" (num 5) "t9" "wA" 9 (GameStore.wallet Scenario.ended))
  = (WalletScreen.pendingAmount (GameStore.wallet Scenario.ended) + num 5)%Qc.
Proof.
  refine (proj1 (deposits_stay_pending "A" (num 5) "t9" "wA" 9
                   (GameStore.wallet Scenario.ended) _ _)).
  - qc_closed.
  - vm_compute. reflexivity.
Defined.

End LedgerRecords.

(** ** Game states, readiness and settings *)

Section GameStateActions.
Import GameStore.

Implicit Types (g : GameStoreState).

(** An update of a game state stores, for each property, the value the
    update carries, and without one the value stored before (or the centred
    one, where the match had no game state); the time is that of the call,
    whatever time the update carries.  Two updates amount to one: each
    property takes the value of the later update that carries it, else of
    the earlier one, else stays as stored (or centred).  The game states of
    other matches are not touched. *)
Theorem updateGameState_last_writer_wins matchId u1 u2 t1 t2 g :
  (∃ st, gameStates (updateGameState matchId u2 t2 g) !! matchId = Some st
     ∧ ballPosition st
       = default (ballPosition (default (centred t2) (gameStates g !! matchId)))
           (new_ballPosition u2)
     ∧ player1Position st
       = default (player1Position (default (centred t2) (gameStates g !! matchId)))
           (new_player1Position u2)
     ∧ player2Position st
       = default (player2Position (default (centred t2) (gameStates g !! matchId)))
           (new_player2Position u2)
     ∧ scores st
       = default (scores (default (centred t2) (gameStates g !! matchId)))
           (new_scores u2)
     ∧ lastUpdate st = t2)
  ∧ (∃ st, gameStates (updateGameState matchId u2 t2
                         (updateGameState matchId u1 t1 g)) !! matchId = Some st
     ∧ ballPosition st
       = default
           (default (ballPosition (default (centred t1) (gameStates g !! matchId)))
              (new_ballPosition u1))
           (new_ballPosition u2)
     ∧ player1Position st
       = default
           (default (player1Position (default (centred t1) (gameStates g !! matchId)))
              (new_player1Position u1))
           (new_player1Position u2)
     ∧ player2Position st
       = default
           (default (player2Position (default (centred t1) (gameStates g !! matchId)))
              (new_player2Position u1))
           (new_player2Position u2)
     ∧ scores st
       = default
           (default (scores (default (centred t1) (gameStates g !! matchId)))
              (new_scores u1))
           (new_scores u2)
     ∧ lastUpdate st = t2)
  ∧ updateGameState matchId u2 t2 (updateGameState matchId u1 t1 g)
    = updateGameState matchId (spread u2 u1) t2 g
  ∧ ∀ other, other ≠ matchId →
      gameStates (updateGameState matchId u2 t2 g) !! other
      = gameStates g !! other.
Proof.
  split; [|split; [|split]].
  - unfold updateGameState. simpl. rewrite lookup_insert_eq.
    eexists. split; [reflexivity|]. simpl. done.
  - unfold updateGameState. simpl. rewrite !lookup_insert_eq.
    eexists. split; [reflexivity|]. simpl. done.
  - unfold updateGameState, with_gameStates. simpl.
    rewrite lookup_insert_eq, insert_insert_eq. simpl.
    do 2 f_equal.
    destruct u1 as [b1 p1 q1 s1 l1], u2 as [b2 p2 q2 s2 l2]; simpl.
    destruct (gameStates g !! matchId); simpl;
      by destruct b1, b2, p1, p2, q1, q2, s1, s2.
  - intros other Hother. unfold updateGameState. simpl.
    by rewrite lookup_insert_ne.
Qed.

(** [resetMatch] does nothing for a match without a game state, and never
    creates one; where there is one it centres it, whatever the updates
    before, and a second reset only renews the time. *)
Theorem resetMatch_recentres matchId now g :
  (gameStates g !! matchId = None → resetMatch matchId now g = g)
  ∧ (∀ u t, gameStates (resetMatch matchId now (updateGameState matchId u t g))
              !! matchId = Some (centred now))
  ∧ (∀ now', resetMatch matchId now' (resetMatch matchId now g)
             = resetMatch matchId now' g)
  ∧ (∀ k, is_Some (gameStates (resetMatch matchId now g) !! k)
          ↔ is_Some (gameStates g !! k)).
Proof.
  split; [|split; [|split]].
  - intros Hnone. unfold resetMatch. by rewrite Hnone.
  - intros u t. unfold resetMatch, updateGameState. simpl.
    rewrite lookup_insert_eq. simpl. by rewrite lookup_insert_eq.
  - intros now'. unfold resetMatch.
    destruct (gameStates g !! matchId) as [st|] eqn:Hst; simpl.
    + rewrite lookup_insert_eq. unfold with_gameStates. simpl.
      by rewrite insert_insert_eq.
    + by rewrite Hst.
  - intros k. unfold resetMatch.
    destruct (gameStates g !! matchId) as [st|] eqn:Hst; simpl; [|done].
    destruct (decide (k = matchId)) as [->|Hk].
    + rewrite lookup_insert_eq, Hst. split; eauto.
    + by rewrite lookup_insert_ne.
Qed.

(** [setPlayerReady] records a player for a match that has no readiness
    record: the record it creates holds that player and nothing else, and
    nothing else of the store changes.  For a match that has a record the
    call throws and records nobody: such is every match right after
    [joinMatch], which stores an empty record, and every match for which a
    first player has been marked. *)
Theorem setPlayerReady_records matchId playerId g :
  (playerReadyStatus g !! matchId = None →
   ∃ g', setPlayerReady matchId playerId g = Some g'
     ∧ playerReadyStatus g' !! matchId = Some {[playerId]}
     ∧ (∀ other, other ≠ matchId →
          playerReadyStatus g' !! other = playerReadyStatus g !! other)
     ∧ gameStates g' = gameStates g
     ∧ matchSettings g' = matchSettings g
     ∧ (∀ q, setPlayerReady matchId q g' = None))
  ∧ (is_Some (playerReadyStatus g !! matchId) →
     setPlayerReady matchId playerId g = None)
  ∧ (∀ joiner tx now w w',
       joinMatch matchId joiner tx now w = Resolved (tt, w') →
       setPlayerReady matchId playerId (game w') = None).
Proof.
  split; [|split].
  - intros Hnone. unfold setPlayerReady at 1. rewrite Hnone.
    eexists. split; [reflexivity|]. simpl.
    split; [apply lookup_insert_eq|].
    split; [intros other Hother; by rewrite lookup_insert_ne|].
    split; [done|]. split; [done|].
    intros q. unfold setPlayerReady. simpl. by rewrite lookup_insert_eq.
  - intros [r Hr]. unfold setPlayerReady. by rewrite Hr.
  - intros joiner tx now w w'. unfold joinMatch.
    destruct (pendingMatches (game w) !! matchId) as [m|]; [|done].
    destruct (WalletStore.wallets (wallet w) !! joiner) as [uw|]; [|done].
    destruct (decide _); [done|].
    intros [= <-]. unfold setPlayerReady. simpl. by rewrite lookup_insert_eq.
Qed.

(** The instance of [setPlayerReady_records] at the match of
    [Scenario.joined]: its first player cannot be marked ready. *)
Lemma setPlayerReady_records_witness :
  setPlayerReady "m" "A" (game Scenario.joined) = None.
Proof.
  refine (proj1 (proj2 (setPlayerReady_records "m" "A" (game Scenario.joined))) _).
  vm_compute. eauto.
Defined.

(** Updates of game states, readiness and settings never change the life
    cycle of a match: the pending and active matches and the history stay
    as they are through any number of them. *)
Theorem game_actions_keep_matches l g :
  activeMatches (runGameAll l g) = activeMatches g
  ∧ pendingMatches (runGameAll l g) = pendingMatches g
  ∧ matchHistory (runGameAll l g) = matchHistory g.
Proof.
  revert g. induction l as [|a l IH]; intros g; [done|].
  unfold runGameAll in *. simpl.
  destruct (IH (runGame a g)) as (-> & -> & ->).
  destruct a; simpl; try done.
  - unfold setPlayerReady. by destruct (playerReadyStatus g !! matchId).
  - unfold resetMatch. by destruct (gameStates g !! matchId).
Qed.

(** With nothing to update, [updateMatchSettings] leaves the settings of a
    match as they are, and gives a match without settings the default
    ones: maximal score 11, ball speed 1, paddle size 1 and no description.
    The settings of other matches are not touched. *)
Theorem updateMatchSettings_defaults matchId settingsId g :
  let nothing :=
    {| new_id := None; new_matchId := None; new_maxScore := None;
       new_ballSpeed := None; new_paddleSize := None; new_description := None |} in
  matchSettings (updateMatchSettings matchId nothing settingsId g) !! matchId
  = Some (default
            {| settings_id := settingsId; settings_matchId := matchId;
               maxScore := num 11; ballSpeed := num 1; paddleSize := num 1;
               settings_description := "" |}
            (matchSettings g !! matchId))
  ∧ ∀ settings other, other ≠ matchId →
      matchSettings (updateMatchSettings matchId settings settingsId g) !! other
      = matchSettings g !! other.
Proof.
  split.
  - unfold updateMatchSettings. simpl. rewrite lookup_insert_eq.
    by destruct (matchSettings g !! matchId) as [[]|].
  - intros settings other Hother. unfold updateMatchSettings. simpl.
    by rewrite lookup_insert_ne.
Qed.

End GameStateActions.

(** ** Reading the users after [updateStats] *)

Section StatsLookups.
Import UserStore.

Implicit Types (s : UserStoreState).

Lemma updateStats_get_same id won stake now s u :
  JsObject.get id (users s) = Some u →
  JsObject.get id (users (updateStats id won stake now s))
  = Some {| user_id := user_id u;
            wins := (wins u + (if won then num 1 else num 0))%Qc;
            email := email u;
            losses := (losses u + (if won then num 0 else num 1))%Qc;
            username := username u; user_createdAt := user_createdAt u;
            lastActive := lastActive u; reputation := reputation u;
            totalMatches := (totalMatches u + num 1)%Qc |}.
Proof. intros Hu. unfold updateStats. rewrite Hu. simpl. apply get_put_eq. Qed.

Lemma updateStats_get_other id other won stake now s :
  other ≠ id →
  JsObject.get other (users (updateStats id won stake now s))
  = JsObject.get other (users s)
  ∧ userStats (updateStats id won stake now s) !! other = userStats s !! other.
Proof.
  intros Hother. unfold updateStats.
  destruct (JsObject.get id (users s)); [|done]. simpl.
  rewrite get_put_ne by done. by rewrite lookup_insert_ne.
Qed.

End StatsLookups.

(** ** The life cycle of a match *)

Section MatchLifeCycle.
Import GameStore.

Implicit Types (w : Stores) (m : Match).

Lemma num_0 : num 0 = 0%Qc.
Proof. qc_eval. Qed.

(** [createMatch] resolves exactly when a user is authenticated (a
    non-empty id) and has a wallet whose balance is not below the stake.
    It then returns the generated id and stores under it a pending match
    with no winner, both scores 0 and its three dates at the time of the
    call, whose players and stake are those of the argument (the first
    player is not compared with the authenticated user); the active
    matches, the history and the user store are not touched. *)
Theorem createMatch_resolves rootUserId matchData matchId tx now w :
  ((∃ r, createMatch rootUserId matchData matchId tx now w = Resolved r)
   ↔ ∃ userId userWallet,
       rootUserId = Some userId ∧ userId ≠ ""
       ∧ WalletStore.wallets (wallet w) !! userId = Some userWallet
       ∧ ¬ (balance userWallet < stakeAmount matchData)%Qc)
  ∧ ∀ r, createMatch rootUserId matchData matchId tx now w = Resolved r →
      fst r = matchId
      ∧ pendingMatches (game (snd r)) !! matchId
        = Some {| match_id := matchId; status := "pending"; winner := "";
                  endedAt := now; createdAt := now;
                  player1Id := player1Id matchData;
                  player2Id := player2Id matchData; startedAt := now;
                  stakeAmount := stakeAmount matchData;
                  player1Score := num 0; player2Score := num 0 |}
      ∧ activeMatches (game (snd r)) = activeMatches (game w)
      ∧ matchHistory (game (snd r)) = matchHistory (game w)
      ∧ user (snd r) = user w.
Proof.
  unfold createMatch.
  destruct rootUserId as [userId|].
  2:{ split; [|done]. split; [by intros [? ?]|by intros (? & ? & ? & _)]. }
  destruct (decide (userId = "")) as [Hempty|Hid].
  { split; [|done]. split; [by intros [? ?]|].
    intros (? & ? & [= <-] & ? & _). done. }
  destruct (WalletStore.wallets (wallet w) !! userId) as [uw|] eqn:Huw.
  2:{ split; [|done]. split; [by intros [? ?]|].
      intros (? & ? & [= <-] & _ & ? & _). congruence. }
  destruct (decide (balance uw < stakeAmount matchData)%Qc) as [Hlow|Hok].
  { split; [|done]. split; [by intros [? ?]|].
    intros (? & ? & [= <-] & _ & ? & ?). congruence. }
  split.
  - split; [intros _; eauto 10|eauto].
  - intros r [= <-]. simpl. by rewrite lookup_insert_eq.
Qed.

(** A player whose balance and available funds cover the stake joins a
    pending match: the match leaves the pending matches and becomes active
    with that player as second player and the time of the call as its
    start, its readiness record is emptied, the stake is locked in the
    joiner's wallet, and the escrow holding of the match records the stake
    and the two players.  Nothing compares the joiner with the creator. *)
Theorem joinMatch_activates matchId playerId tx now w m userWallet :
  pendingMatches (game w) !! matchId = Some m →
  WalletStore.wallets (wallet w) !! playerId = Some userWallet →
  ¬ (balance userWallet < stakeAmount m)%Qc →
  ¬ (balance userWallet - lockedBalance userWallet < stakeAmount m)%Qc →
  ∃ w', joinMatch matchId playerId tx now w = Resolved (tt, w')
    ∧ pendingMatches (game w') !! matchId = None
    ∧ activeMatches (game w') !! matchId
      = Some {| match_id := match_id m; status := "active"; winner := winner m;
                endedAt := endedAt m; createdAt := createdAt m;
                player1Id := player1Id m; player2Id := playerId;
                startedAt := now; stakeAmount := stakeAmount m;
                player1Score := player1Score m; player2Score := player2Score m |}
    ∧ playerReadyStatus (game w') !! matchId = Some ∅
    ∧ WalletStore.escrowHoldings (wallet w') !! matchId
      = Some {| WalletStore.escrow_matchId := matchId;
                WalletStore.amount := stakeAmount m;
                WalletStore.escrow_player1Id := player1Id m;
                WalletStore.escrow_player2Id := playerId;
                WalletStore.escrow_timestamp := now |}
    ∧ WalletStore.getLockedBalance playerId (wallet w')
      = (lockedBalance userWallet + stakeAmount m)%Qc
    ∧ WalletStore.getWalletBalance playerId (wallet w') = balance userWallet
    ∧ user w' = user w.
Proof.
  intros Hm Hw Hbalance Hfunds. unfold joinMatch. rewrite Hm, Hw.
  destruct (decide _) as [|_]; [done|].
  eexists. split; [reflexivity|]. simpl.
  erewrite placeBet_active; [|exact Hw|exact Hfunds|apply lookup_insert_eq].
  unfold WalletStore.getLockedBalance, WalletStore.getWalletBalance. simpl.
  rewrite !lookup_insert_eq, lookup_delete_eq. done.
Qed.

Lemma joinMatch_activates_witness :
  ∃ w', joinMatch "m" "B" "t4" 6 Scenario.created = Resolved (tt, w')
        ∧ pendingMatches (game w') !! "m" = None.
Proof.
  destruct (pendingMatches (game Scenario.created) !! "m") as [m|] eqn:Hm;
    [|vm_compute in Hm; discriminate Hm].
  destruct (WalletStore.wallets (wallet Scenario.created) !! "B") as [uw|] eqn:Hw;
    [|vm_compute in Hw; discriminate Hw].
  destruct (joinMatch_activates "m" "B" "t4" 6 Scenario.created m uw Hm Hw)
    as (w' & Hres & Hgone & _).
  - vm_compute in Hm, Hw. injection Hm as <-. injection Hw as <-. qc_closed.
  - vm_compute in Hm, Hw. injection Hm as <-. injection Hw as <-. qc_closed.
  - exists w'. split; [exact Hres|exact Hgone].
Defined.

(** A match is joined once and settled once: after a join that resolved,
    every further join of that match is rejected, and after an [endMatch]
    that resolved, every further [endMatch] or [forfeitMatch] for it is
    rejected, with "Match not found" and no change to any store. *)
Theorem match_transitions_happen_once matchId w w' :
  (∀ playerId tx now,
     joinMatch matchId playerId tx now w = Resolved (tt, w') →
     ∀ playerId' tx' now',
       joinMatch matchId playerId' tx' now' w' = Rejected "Match not found")
  ∧ (∀ winnerId tx now,
       endMatch matchId winnerId tx now w = Resolved (tt, w') →
       ∀ playerId' tx' now',
         endMatch matchId playerId' tx' now' w' = Rejected "Match not found"
         ∧ forfeitMatch matchId playerId' tx' now' w'
           = Rejected "Match not found").
Proof.
  split.
  - intros playerId tx now. unfold joinMatch.
    destruct (pendingMatches (game w) !! matchId) as [m|]; [|done].
    destruct (WalletStore.wallets (wallet w) !! playerId); [|done].
    destruct (decide _); [done|].
    intros [= <-] playerId' tx' now'. simpl. by rewrite lookup_delete_eq.
  - intros winnerId tx now. unfold forfeitMatch, endMatch.
    destruct (activeMatches (game w) !! matchId) as [m|]; [|done].
    intros [= <-] playerId' tx' now'. simpl. by rewrite lookup_delete_eq.
Qed.

Lemma match_transitions_happen_once_witness :
  endMatch "m" "B" "t9" 9 Scenario.ended = Rejected "Match not found".
Proof.
  refine (proj1 (proj2 (match_transitions_happen_once "m" Scenario.joined
                          Scenario.ended) "A" "t5" 7 _ "B" "t9" 9)).
  vm_compute. reflexivity.
Defined.

(** [endMatch] on an active match whose winner and loser (the other player
    of the winner, which is the first player when the winner is not the
    first player) are two known users: the winner gets one more win, the
    loser one more loss, both one more match, and nothing else of their
    counters changes; the match goes to the history as completed, its game
    state is deleted, and the wallet store is what [processPayout] makes of
    it. *)
Theorem endMatch_settles_stats matchId winnerId tx now w m uW uL :
  activeMatches (game w) !! matchId = Some m →
  winnerId ≠ otherPlayer m winnerId →
  JsObject.get winnerId (UserStore.users (user w)) = Some uW →
  JsObject.get (otherPlayer m winnerId) (UserStore.users (user w)) = Some uL →
  ∃ w' uW' uL',
    endMatch matchId winnerId tx now w = Resolved (tt, w')
    ∧ JsObject.get winnerId (UserStore.users (user w')) = Some uW'
    ∧ JsObject.get (otherPlayer m winnerId) (UserStore.users (user w')) = Some uL'
    ∧ wins uW' = (wins uW + num 1)%Qc ∧ losses uW' = losses uW
    ∧ totalMatches uW' = (totalMatches uW + num 1)%Qc
    ∧ wins uL' = wins uL ∧ losses uL' = (losses uL + num 1)%Qc
    ∧ totalMatches uL' = (totalMatches uL + num 1)%Qc
    ∧ (status <$> matchHistory (game w') !! matchId) = Some "completed"
    ∧ (winner <$> matchHistory (game w') !! matchId) = Some winnerId
    ∧ activeMatches (game w') !! matchId = None
    ∧ gameStates (game w') !! matchId = None
    ∧ wallet w' = WalletStore.processPayout matchId winnerId tx now (wallet w).
Proof.
  intros Hm Hne HW HL. unfold endMatch. rewrite Hm.
  eexists _, _, _. split; [reflexivity|]. simpl.
  destruct (updateStats_get_other (otherPlayer m winnerId) winnerId false
              (stakeAmount m) now
              (UserStore.updateStats winnerId true (stakeAmount m) now (user w)))
    as [-> _]; [done|].
  rewrite (updateStats_get_same winnerId true _ _ _ uW HW).
  split; [reflexivity|].
  erewrite updateStats_get_same; last first.
  { destruct (updateStats_get_other winnerId (otherPlayer m winnerId) true
                (stakeAmount m) now (user w)) as [-> _]; [done|exact HL]. }
  split; [reflexivity|]. simpl.
  rewrite !lookup_insert_eq, !lookup_delete_eq. simpl.
  rewrite !num_0, !Qcplus_0_r. done.
Qed.

Lemma endMatch_settles_stats_witness :
  ∃ w' uW' uL',
    endMatch "m" "A" "t5" 7 Scenario.joined = Resolved (tt, w')
    ∧ JsObject.get "A" (UserStore.users (user w')) = Some uW'
    ∧ JsObject.get "B" (UserStore.users (user w')) = Some uL'
    ∧ wins uW' = num 1 ∧ losses uL' = num 1.
Proof.
  destruct (activeMatches (game Scenario.joined) !! "m") as [m|] eqn:Hm;
    [|vm_compute in Hm; discriminate Hm].
  destruct (JsObject.get "A" (UserStore.users (user Scenario.joined)))
    as [uW|] eqn:HW; [|vm_compute in HW; discriminate HW].
  destruct (JsObject.get "B" (UserStore.users (user Scenario.joined)))
    as [uL|] eqn:HL; [|vm_compute in HL; discriminate HL].
  assert (Hother : otherPlayer m "A" = "B")
    by (vm_compute in Hm; injection Hm as <-; reflexivity).
  pose proof (endMatch_settles_stats "m" "A" "t5" 7 Scenario.joined m uW uL Hm)
    as H.
  rewrite Hother in H.
  destruct H as (w' & uW' & uL' & Hres & HW' & HL' & Hwins & _ & _ & _ & Hlosses & _);
    [discriminate|exact HW|exact HL|].
  exists w', uW', uL'. split; [exact Hres|]. split; [exact HW'|].
  split; [exact HL'|].
  vm_compute in HW, HL. injection HW as <-. injection HL as <-.
  split; [rewrite Hwins|rewrite Hlosses]; qc_eval.
Defined.

(** The create-match screen never locks a stake: whatever the form, the
    users and the screen state, when the generated match id is not that of
    an active match, [handleCreateMatch] leaves every wallet and every
    escrow holding as it was.  When the form can be submitted and the
    authenticated user is the current user, it still navigates to the lobby
    with no error on the screen, and the match is pending. *)
Theorem handleCreateMatch_locks_nothing settings rootUserId matchId tx tx' now
    screen w :
  activeMatches (game w) !! matchId = None →
  WalletStore.wallets
    (wallet (snd (CreateMatchScreen.handleCreateMatch settings rootUserId
                    matchId tx tx' now screen w)))
  = WalletStore.wallets (wallet w)
  ∧ WalletStore.escrowHoldings
      (wallet (snd (CreateMatchScreen.handleCreateMatch settings rootUserId
                      matchId tx tx' now screen w)))
    = WalletStore.escrowHoldings (wallet w)
  ∧ ∀ currentUser,
      UserStore.currentUser (user w) = Some currentUser →
      CreateMatchScreen.canCreateMatch (Some currentUser)
        (WalletStore.wallets (wallet w)) settings = true →
      rootUserId = Some (user_id currentUser) →
      user_id currentUser ≠ "" →
      CreateMatchScreen.navigatedTo
        (fst (CreateMatchScreen.handleCreateMatch settings rootUserId
                matchId tx tx' now screen w)) = Some "Lobby"
      ∧ CreateMatchScreen.error
          (fst (CreateMatchScreen.handleCreateMatch settings rootUserId
                  matchId tx tx' now screen w))
        = CreateMatchScreen.error screen
      ∧ is_Some (pendingMatches
                   (game (snd (CreateMatchScreen.handleCreateMatch settings
                                 rootUserId matchId tx tx' now screen w)))
                 !! matchId).
Proof.
  intros Hfresh. unfold CreateMatchScreen.handleCreateMatch, UserStore_currentUser.
  destruct (UserStore.currentUser (user w)) as [cu|]; [|done].
  destruct (CreateMatchScreen.canCreateMatch _ _ _) eqn:Hcan.
  2:{ split; [done|]. split; [done|]. intros ? [= <-] ?. congruence. }
  destruct (createMatch rootUserId _ matchId tx now w) as [[id w1]|msg] eqn:Hcreate.
  - destruct (createMatch_places_no_bet _ _ _ _ _ _ _ _ Hfresh Hcreate)
      as [Hwallets Hescrow].
    assert (Hid : id = matchId ∧ activeMatches (game w1) = activeMatches (game w)
                  ∧ is_Some (pendingMatches (game w1) !! matchId)).
    { revert Hcreate. unfold createMatch.
      destruct rootUserId as [u|]; [|done].
      destruct (decide (u = "")); [done|].
      destruct (WalletStore.wallets (wallet w) !! u); [|done].
      destruct (decide _); [done|].
      intros [= <- <-]. simpl. rewrite lookup_insert_eq. eauto. }
    destruct Hid as (-> & Hactive & Hpending).
    simpl.
    destruct (placeBet_not_active (activeMatches (game w1)) (user_id cu) matchId
                (CreateMatchScreen.stakeAmount settings) tx' now (wallet w1))
      as (Hw' & He' & _); [by rewrite Hactive|].
    rewrite Hw', He', Hwallets, Hescrow. done.
  - simpl. split; [done|]. split; [done|].
    intros ? [= <-] _ -> Hne. exfalso.
    revert Hcreate Hcan. unfold createMatch, CreateMatchScreen.canCreateMatch.
    rewrite decide_False by done. simpl.
    destruct (WalletStore.wallets (wallet w) !! user_id cu) as [uw|];
      [|by rewrite andb_false_r].
    destruct (decide _) as [Hlow|]; [|done].
    intros _. rewrite andb_true_iff, !bool_decide_eq_true.
    intros [_ Hle]. simpl in Hlow. by apply Qcle_not_lt in Hle.
Qed.

Lemma handleCreateMatch_locks_nothing_witness :
  WalletStore.wallets
    (wallet (snd (CreateMatchScreen.handleCreateMatch Scenario.stake40 (Some "A")
                    "m" "t3" "t4" 5 Scenario.idle Scenario.signedIn)))
  = WalletStore.wallets (wallet Scenario.signedIn).
Proof.
  refine (proj1 (handleCreateMatch_locks_nothing Scenario.stake40 (Some "A")
                   "m" "t3" "t4" 5 Scenario.idle Scenario.signedIn _)).
  vm_compute. reflexivity.
Defined.

End MatchLifeCycle.

(** ** Users, statistics and preferences *)

Section UserRecords.
Import UserStore.

Implicit Types (s : UserStoreState).

Lemma put_fresh {V} k (v : V) (o : list (string * V)) :
  JsObject.get k o = None → JsObject.put k v o = (o ++ [(k, v)])%list.
Proof.
  induction o as [|[k' v'] o IH]; simpl; [done|].
  destruct (decide (k' = k)); [done|]. intros Hk. by rewrite IH.
Qed.

(** [initializeUser] with an id no user has yet puts the new user last in
    the order of the users and returns the id; counters and reputation the
    data do not carry are 0 and 100, and both dates default to the time of
    the call; the user gets zeroed statistics, the default preferences and
    an empty match history.  The other users and their statistics stay as
    they are, and so does the leaderboard cache. *)
Theorem initializeUser_registers userData id now s :
  JsObject.get id (users s) = None →
  fst (initializeUser userData id now s) = id
  ∧ users (snd (initializeUser userData id now s))
    = (users s
      ++ [(id, {| user_id := id;
                  wins := default (num 0) (data_wins userData);
                  email := data_email userData;
                  losses := default (num 0) (data_losses userData);
                  username := data_username userData;
                  user_createdAt := default now (data_createdAt userData);
                  lastActive := default now (data_lastActive userData);
                  reputation := default (num 100) (data_reputation userData);
                  totalMatches := default (num 0) (data_totalMatches userData) |})])%list
  ∧ userStats (snd (initializeUser userData id now s)) !! id
    = Some {| rank := num 0; winRate := num 0; avgStake := num 0 |}
  ∧ userPreferences (snd (initializeUser userData id now s)) !! id
    = Some {| notifications := true; theme := light; soundEnabled := true |}
  ∧ matchHistory (snd (initializeUser userData id now s)) !! id = Some []
  ∧ (∀ other, other ≠ id →
       JsObject.get other (users (snd (initializeUser userData id now s)))
       = JsObject.get other (users s)
       ∧ userStats (snd (initializeUser userData id now s)) !! other
         = userStats s !! other)
  ∧ cachedLeaderboard (snd (initializeUser userData id now s)) = cachedLeaderboard s
  ∧ cachedLeaderboardExpiry (snd (initializeUser userData id now s))
    = cachedLeaderboardExpiry s.
Proof.
  intros Hfresh. unfold initializeUser. simpl.
  rewrite (put_fresh _ _ _ Hfresh), !lookup_insert_eq.
  do 5 (split; [done|]). split; [|done].
  intros other Hother. rewrite <- (put_fresh _ _ _ Hfresh).
  rewrite get_put_ne by done. by rewrite lookup_insert_ne.
Qed.

Lemma initializeUser_registers_witness :
  fst <$> users (snd (initializeUser (Scenario.newUser "dave") "D" 9
                        Scenario.threeUsers))
  = ["A"; "B"; "C"; "D"].
Proof.
  destruct (initializeUser_registers (Scenario.newUser "dave") "D" 9
              Scenario.threeUsers) as (_ & -> & _).
  - vm_compute. reflexivity.
  - vm_compute. reflexivity.
Defined.

(** [updateStats] touches one user: for an unknown id the store stays as
    it is, and in any case the other users, their statistics, the order of
    the users, the preferences, the match histories and the leaderboard
    cache are unchanged. *)
Theorem updateStats_touches_one_user id won stake now s :
  (JsObject.get id (users s) = None → updateStats id won stake now s = s)
  ∧ (∀ other, other ≠ id →
       JsObject.get other (users (updateStats id won stake now s))
       = JsObject.get other (users s)
       ∧ userStats (updateStats id won stake now s) !! other
         = userStats s !! other)
  ∧ fst <$> users (updateStats id won stake now s) = fst <$> users s
  ∧ userPreferences (updateStats id won stake now s) = userPreferences s
  ∧ matchHistory (updateStats id won stake now s) = matchHistory s
  ∧ cachedLeaderboard (updateStats id won stake now s) = cachedLeaderboard s
  ∧ cachedLeaderboardExpiry (updateStats id won stake now s)
    = cachedLeaderboardExpiry s.
Proof.
  split; [|split].
  - intros Hnone. unfold updateStats. by rewrite Hnone.
  - intros other Hother. by apply updateStats_get_other.
  - unfold updateStats.
    destruct (JsObject.get id (users s)) as [u|] eqn:Hu; [|done]. simpl.
    split; [|done]. apply keys_put_present. eauto.
Qed.

(** [addMatchToHistory] puts the match first in the history of the user,
    which it creates if there is none: after two additions the later
    match comes first, then the earlier one, then what was there.  Other
    histories are not touched. *)
Theorem addMatchToHistory_newest_first id m1 m2 s :
  matchHistory (addMatchToHistory id m2 (addMatchToHistory id m1 s)) !! id
  = Some (m2 :: m1 :: default [] (matchHistory s !! id))
  ∧ ∀ other, other ≠ id →
      matchHistory (addMatchToHistory id m2 (addMatchToHistory id m1 s)) !! other
      = matchHistory s !! other.
Proof.
  unfold addMatchToHistory. simpl. rewrite !lookup_insert_eq. simpl.
  split; [done|]. intros other Hother. by rewrite !lookup_insert_ne.
Qed.

(** [updateProfile] changes the fields of one known user and nothing
    else: it does nothing for an unknown id, and for a known one the user
    stays under the same key and at the same place, even when the update
    carries another [id]; statistics and the leaderboard cache are not
    touched. *)
Theorem updateProfile_keeps_keys id updates now s :
  fst <$> users (updateProfile id updates now s) = fst <$> users s
  ∧ (JsObject.get id (users s) = None → updateProfile id updates now s = s)
  ∧ (∀ u, JsObject.get id (users s) = Some u →
          JsObject.get id (users (updateProfile id updates now s))
          = Some (assign_user u updates))
  ∧ (∀ other, other ≠ id →
       JsObject.get other (users (updateProfile id updates now s))
       = JsObject.get other (users s))
  ∧ userStats (updateProfile id updates now s) = userStats s
  ∧ cachedLeaderboard (updateProfile id updates now s) = cachedLeaderboard s.
Proof.
  unfold updateProfile.
  destruct (JsObject.get id (users s)) as [u|] eqn:Hu; simpl.
  - split; [apply keys_put_present; eauto|].
    split; [done|]. split; [intros ? [= <-]; apply get_put_eq|].
    split; [|done]. intros other Hother. by apply get_put_ne.
  - done.
Qed.

(** [updateUserPreferences] never creates preferences: for a user without
    any the store stays as it is.  Applying the same update twice is
    applying it once. *)
Theorem updateUserPreferences_merges id preferences s :
  (userPreferences s !! id = None → updateUserPreferences id preferences s = s)
  ∧ updateUserPreferences id preferences (updateUserPreferences id preferences s)
    = updateUserPreferences id preferences s
  ∧ (∀ k, is_Some (userPreferences (updateUserPreferences id preferences s) !! k)
          ↔ is_Some (userPreferences s !! k)).
Proof.
  unfold updateUserPreferences.
  destruct (userPreferences s !! id) as [p|] eqn:Hp; simpl.
  - split; [done|]. split.
    + rewrite lookup_insert_eq, insert_insert_eq.
      assert (assign_preferences (assign_preferences p preferences) preferences
              = assign_preferences p preferences) as ->; [|done].
      destruct preferences as [n t d], p as [pn pt pd].
      by destruct n, t, d.
    + intros k. destruct (decide (k = id)) as [->|Hk].
      * rewrite lookup_insert_eq, Hp. split; eauto.
      * by rewrite lookup_insert_ne.
  - by rewrite Hp.
Qed.

(** The user store never signs anybody in and never stores a rank: after
    any actions from the initial store, [currentUser] is still [null] and
    every statistics record has rank 0 (the ranks of the leaderboard exist
    in the returned list and the cache only). *)
Lemma run_keeps_rank_and_user a s :
  currentUser s = None →
  (∀ id st, userStats s !! id = Some st → rank st = num 0) →
  currentUser (run a s) = None
  ∧ ∀ id st, userStats (run a s) !! id = Some st → rank st = num 0.
Proof.
  intros Hcu Hrank. destruct a; simpl; try done.
  - unfold updateStats. destruct (JsObject.get id (users s)); [|done].
    simpl. split; [done|]. intros k st.
    destruct (decide (k = id)) as [->|Hk].
    + rewrite lookup_insert_eq. intros [= <-]. simpl.
      destruct (userStats s !! id) as [st0|] eqn:Hst0; simpl; [|done].
      by apply (Hrank id).
    + rewrite lookup_insert_ne by done. apply Hrank.
  - unfold updateProfile. by destruct (JsObject.get id (users s)).
  - unfold fetchLeaderboard. by destruct (cacheHit now s).
  - split; [done|]. intros k st.
    destruct (decide (k = id)) as [->|Hk].
    + rewrite lookup_insert_eq. by intros [= <-].
    + rewrite lookup_insert_ne by done. apply Hrank.
  - unfold updateUserPreferences. by destruct (userPreferences s !! id).
Qed.

Theorem stored_rank_never_set l :
  currentUser (runAll l initialState) = None
  ∧ ∀ id st, userStats (runAll l initialState) !! id = Some st → rank st = num 0.
Proof.
  assert (Hgen : ∀ s, currentUser s = None →
                      (∀ id st, userStats s !! id = Some st → rank st = num 0) →
                      currentUser (runAll l s) = None
                      ∧ ∀ id st, userStats (runAll l s) !! id = Some st →
                                 rank st = num 0).
  { induction l as [|a l IH]; intros s Hcu Hrank; [done|].
    unfold runAll in *. simpl.
    destruct (run_keeps_rank_and_user a s Hcu Hrank). by apply IH. }
  apply Hgen; [done|]. intros id st Hst. simpl in Hst.
  by rewrite lookup_empty in Hst.
Qed.

(** After [clearCache] the next [fetchLeaderboard] recomputes the
    leaderboard from the users and statistics of the moment, whatever the
    time and whatever was cached, and caches it for five minutes. *)
Theorem clearCache_forces_recompute now s :
  fst (fetchLeaderboard now (clearCache s)) = computeLeaderboard s
  ∧ cachedLeaderboard (snd (fetchLeaderboard now (clearCache s)))
    = Some (computeLeaderboard s)
  ∧ cachedLeaderboardExpiry (snd (fetchLeaderboard now (clearCache s)))
    = Some (now + 5 * 60 * 1000)
  ∧ users (clearCache s) = users s ∧ userStats (clearCache s) = userStats s.
Proof. done. Qed.

End UserRecords.

(** ** The statistics of a run of matches *)

Section RunningStatistics.
Import UserStore.

Implicit Types (s : UserStoreState) (results : list (bool * Qc * Z)).

Lemma num_add a b : (num a + num b)%Qc = num (a + b).
Proof.
  apply Qc_is_canon. unfold num, Qc_of_Z, Qcplus, Q2Qc. simpl.
  by rewrite Qred_correct, inject_Z_plus.
Qed.

Lemma winsOf_cons r results :
  winsOf (r :: results)
  = if fst (fst r) then S (winsOf results) else winsOf results.
Proof.
  unfold winsOf. rewrite filter_cons.
  destruct (fst (fst r)); [by rewrite decide_True|by rewrite decide_False].
Qed.

Lemma winsOf_le results : (winsOf results ≤ length results)%nat.
Proof. unfold winsOf. apply length_filter. Qed.

(** The statistics stored by one more match: the win rate is computed from
    the counters as they are after the match. *)
Lemma updateStats_winRate id won stake now s u :
  JsObject.get id (users s) = Some u →
  ∃ st, userStats (updateStats id won stake now s) !! id = Some st
        ∧ winRate st
          = ((wins u + (if won then num 1 else num 0))
             / (totalMatches u + num 1) * num 100)%Qc.
Proof.
  intros Hu. unfold updateStats. rewrite Hu. simpl.
  rewrite lookup_insert_eq. eexists. split; reflexivity.
Qed.

Lemma recordMatches_counters id results :
  ∀ s u a b k,
    JsObject.get id (users s) = Some u →
    wins u = num a → losses u = num b → totalMatches u = num k →
    ∃ u',
      JsObject.get id (users (recordMatches id results s)) = Some u'
      ∧ wins u' = num (a + Z.of_nat (winsOf results))
      ∧ losses u'
        = num (b + (Z.of_nat (length results) - Z.of_nat (winsOf results)))
      ∧ totalMatches u' = num (k + Z.of_nat (length results))
      ∧ (results ≠ [] →
         ∃ st, userStats (recordMatches id results s) !! id = Some st
               ∧ winRate st = (wins u' / totalMatches u' * num 100)%Qc).
Proof.
  induction results as [|[[won stake] now] results IH];
    intros s u a b k Hu Ha Hb Hk.
  - exists u. simpl. rewrite !Z.add_0_r. done.
  - destruct (updateStats_winRate id won stake now s u Hu) as (st & Hst & Hrate).
    pose proof (updateStats_get_same id won stake now s u Hu) as Hu1.
    set (u1 := {| user_id := user_id u;
                  wins := (wins u + (if won then num 1 else num 0))%Qc;
                  email := email u;
                  losses := (losses u + (if won then num 0 else num 1))%Qc;
                  username := username u; user_createdAt := user_createdAt u;
                  lastActive := lastActive u; reputation := reputation u;
                  totalMatches := (totalMatches u + num 1)%Qc |}) in *.
    destruct (IH (updateStats id won stake now s) u1
                (a + (if won then 1 else 0))%Z (b + (if won then 0 else 1))%Z
                (k + 1)%Z Hu1)
      as (u' & Hu' & Hwins & Hlosses & Htotal & Hstats).
    { simpl. rewrite Ha. destruct won; apply num_add. }
    { simpl. rewrite Hb. destruct won; apply num_add. }
    { simpl. rewrite Hk. apply num_add. }
    exists u'. unfold recordMatches in *. simpl.
    pose proof (winsOf_le results) as Hle.
    rewrite winsOf_cons. simpl.
    split; [exact Hu'|].
    split; [rewrite Hwins; f_equal; destruct won; lia|].
    split; [rewrite Hlosses; f_equal; destruct won; lia|].
    split; [rewrite Htotal; f_equal; lia|].
    intros _. destruct results as [|r results]; [|by apply Hstats].
    simpl in *. exists st. split; [exact Hst|].
    rewrite Hu1 in Hu'. injection Hu' as <-.
    rewrite Hrate. reflexivity.
Qed.

(** The statistics after a run of matches.  For a user who starts with
    all counters at 0, after the results of [n > 0] matches have been
    recorded: the user has played [n] matches, won as many as the results
    say and lost the others, so wins and losses add up to the matches; and
    the stored win rate is the one computed from these counters, wins by
    matches times 100. *)
Theorem recordMatches_statistics id results s u :
  JsObject.get id (users s) = Some u →
  wins u = num 0 → losses u = num 0 → totalMatches u = num 0 →
  results ≠ [] →
  ∃ u' st,
    JsObject.get id (users (recordMatches id results s)) = Some u'
    ∧ userStats (recordMatches id results s) !! id = Some st
    ∧ totalMatches u' = num (Z.of_nat (length results))
    ∧ wins u' = num (Z.of_nat (winsOf results))
    ∧ losses u' = num (Z.of_nat (length results - winsOf results))
    ∧ (wins u' + losses u')%Qc = totalMatches u'
    ∧ winRate st
      = (num (Z.of_nat (winsOf results)) / num (Z.of_nat (length results))
         * num 100)%Qc.
Proof.
  intros Hu Hw Hl Ht Hne.
  destruct (recordMatches_counters id results s u 0 0 0 Hu Hw Hl Ht)
    as (u' & Hu' & Hwins & Hlosses & Htotal & Hstats).
  destruct (Hstats Hne) as (st & Hst & Hrate).
  rewrite !Z.add_0_l in *.
  pose proof (winsOf_le results) as Hle.
  exists u', st. split; [exact Hu'|]. split; [exact Hst|].
  split; [exact Htotal|]. split; [exact Hwins|].
  split; [rewrite Hlosses; f_equal; lia|].
  split; [rewrite Hwins, Hlosses, Htotal, num_add; f_equal; lia|].
  by rewrite Hrate, Hwins, Htotal.
Qed.

(** The instance of [recordMatches_statistics] at the first player of the
    run and three matches (won, lost, won): three matches, two wins, one
    loss. *)
Lemma recordMatches_statistics_witness :
  ∃ u' st,
    JsObject.get "A"
      (users (recordMatches "A" Scenario.threeMatches
                (GameStore.user Scenario.joined))) = Some u'
    ∧ userStats (recordMatches "A" Scenario.threeMatches
                   (GameStore.user Scenario.joined)) !! "A" = Some st
    ∧ totalMatches u' = num 3 ∧ wins u' = num 2 ∧ losses u' = num 1.
Proof.
  destruct (JsObject.get "A" (users (GameStore.user Scenario.joined)))
    as [u|] eqn:Hu; [|vm_compute in Hu; discriminate Hu].
  destruct (recordMatches_statistics "A" Scenario.threeMatches
              (GameStore.user Scenario.joined) u Hu)
    as (u' & st & Hu' & Hst & Htotal & Hwins & Hlosses & _).
  - vm_compute in Hu. injection Hu as <-. reflexivity.
  - vm_compute in Hu. injection Hu as <-. reflexivity.
  - vm_compute in Hu. injection Hu as <-. reflexivity.
  - discriminate.
  - exists u', st. split; [exact Hu'|]. split; [exact Hst|].
    split; [exact Htotal|]. split; [exact Hwins|exact Hlosses].
Defined.

End RunningStatistics.

(** ** The form of the create-match screen *)

Section CreateMatchForm.
Import CreateMatchScreen.

(** The completion shown for the form is a multiple of 25 between 0 and
    100, and is 100 exactly when the stake is positive, the description is
    not empty and both sliders have left 50.  A form that can be submitted
    is at least a quarter complete, since it has a positive stake. *)
Theorem getCompletionPercentage_bounds settings :
  (0 ≤ getCompletionPercentage settings ≤ 100)%Z
  ∧ (getCompletionPercentage settings `mod` 25 = 0)%Z
  ∧ (getCompletionPercentage settings = 100
     ↔ (0 < stakeAmount settings)%Qc ∧ description settings ≠ ""
       ∧ ballSpeed settings ≠ num 50 ∧ paddleSize settings ≠ num 50)
  ∧ ∀ currentUser wallets,
      canCreateMatch currentUser wallets settings = true →
      (25 ≤ getCompletionPercentage settings)%Z.
Proof.
  unfold getCompletionPercentage, canCreateMatch.
  destruct (decide (0 < stakeAmount settings)%Qc) as [Hs|Hs],
    (decide (description settings = "")) as [Hd|Hd],
    (decide (ballSpeed settings = num 50)) as [Hb|Hb],
    (decide (paddleSize settings = num 50)) as [Hp|Hp];
    (split; [lia|]); (split; [done|]);
    (split; [split; [intros H; try discriminate H; done|by intros (? & ? & ? & ?)]|]);
    intros cu ws Hcan; try lia;
    apply andb_true_iff in Hcan as [Hpos _];
    by apply bool_decide_eq_true in Hpos.
Qed.

End CreateMatchForm.
